(** * A ledger of customers and accounts: shallow embedding of [banking_system.py]

    The development follows the Python source class by class:
    [Account] (with its two variants [SavingsAccount] and [CheckingAccount]),
    [Customer] and [Bank].  Objects are records, the two dictionaries of the
    bank are finite maps keyed by identifier, and every method that mutates
    [self] becomes a function returning the new object next to its result.

    Conventions of the embedding.
    - Amounts are Python floats in the source.  They are taken here as exact
      rationals ([Qc], canonical fractions with Leibniz equality): rounding,
      infinities and NaN are outside the model.
    - A Python [str] is a Rocq [string], read as the sequence of its UTF-8
      bytes; [str.lower] is the ASCII case folding.
    - What the program reads from its environment (the password typed at
      [getpass], the answers typed at [input], the value of [uuid.uuid4])
      is an argument of the function that reads it.
    - The two JSON files are part of the state of the bank ([Bank.disk]);
      text printed on the terminal is not modelled. *)

From Stdlib Require Import ZArith QArith Qcanon Lqa Ascii String.
From stdpp Require Import numbers gmap strings fin_maps list.

#[local] Set Warnings "-clear-no-such-hyp".

Local Open Scope Z_scope.

(** * SHA-256 (FIPS 180-4), as computed by [hashlib.sha256(...).hexdigest()] *)

Module SHA256.

(** 32-bit words are integers in [0, 2^32); additions wrap around. *)
Definition w32 (x : Z) : Z := x mod 2 ^ 32.
Definition add32 (x y : Z) : Z := w32 (x + y).

Definition shr (n x : Z) : Z := Z.shiftr x n.
Definition rotr (n x : Z) : Z :=
  Z.lor (Z.shiftr x n) (w32 (Z.shiftl x (32 - n))).
Definition not32 (x : Z) : Z := Z.lxor x 0xffffffff.

Definition Ch (x y z : Z) : Z := Z.lxor (Z.land x y) (Z.land (not32 x) z).
Definition Maj (x y z : Z) : Z :=
  Z.lxor (Z.lxor (Z.land x y) (Z.land x z)) (Z.land y z).
Definition Sigma0 (x : Z) : Z := Z.lxor (Z.lxor (rotr 2 x) (rotr 13 x)) (rotr 22 x).
Definition Sigma1 (x : Z) : Z := Z.lxor (Z.lxor (rotr 6 x) (rotr 11 x)) (rotr 25 x).
Definition sigma0 (x : Z) : Z := Z.lxor (Z.lxor (rotr 7 x) (rotr 18 x)) (shr 3 x).
Definition sigma1 (x : Z) : Z := Z.lxor (Z.lxor (rotr 17 x) (rotr 19 x)) (shr 10 x).

(** The constants of the standard are taken from its definition: the
    first 32 bits of the fractional parts of the square roots (initial hash
    value) and of the cube roots (round constants) of the first primes. *)
Definition is_prime (n : nat) : bool :=
  forallb (fun d => negb (n mod d =? 0)%nat) (seq 2 (n - 2)).

Definition primes : list Z :=
  List.map Z.of_nat (List.filter is_prime (seq 2 310)).

(** The integer cube root, one bit at a time from bit 40 down. *)
Definition cube_root (n : Z) : Z :=
  fold_left (fun r b => let r' := r + 2 ^ b in if r' * r' * r' <=? n then r' else r)
            (List.map Z.of_nat (rev (seq 0 41))) 0.

Definition sqrt_fraction (p : Z) : Z := Z.sqrt (p * 2 ^ 64) mod 2 ^ 32.
Definition cube_root_fraction (p : Z) : Z := cube_root (p * 2 ^ 96) mod 2 ^ 32.

Definition K : list Z := Eval vm_compute in List.map cube_root_fraction primes.

(** The eight working variables, also the intermediate hash value. *)
Record state := State { sa : Z; sb : Z; sc : Z; sd : Z; se : Z; sf : Z; sg : Z; sh : Z }.

Definition H0 : state :=
  Eval vm_compute in
    let h i := sqrt_fraction (nth i primes 0) in
    State (h 0%nat) (h 1%nat) (h 2%nat) (h 3%nat) (h 4%nat) (h 5%nat) (h 6%nat) (h 7%nat).

Definition round (s : state) (k w : Z) : state :=
let t1 := add32 (add32 (add32 (add32 (sh s) (Sigma1 (se s))) (Ch (se s) (sf s) (sg s))) k) w in
let t2 := add32 (Sigma0 (sa s)) (Maj (sa s) (sb s) (sc s)) in
State (add32 t1 t2) (sa s) (sb s) (sc s) (add32 (sd s) t1) (se s) (sf s) (sg s).

(** The message schedule is kept as a window of the last sixteen words:
    its head is [W t], and [W (t+16)] is appended when the head is used. *)
Definition next_word (win : list Z) : Z :=
  add32 (add32 (add32 (sigma1 (nth 14 win 0)) (nth 9 win 0)) (sigma0 (nth 1 win 0)))
        (nth 0 win 0).

Fixpoint rounds (ks : list Z) (win : list Z) (s : state) : state :=
  match ks with
  | [] => s
  | k :: ks' =>
      rounds ks' (List.tl win ++ [next_word win]) (round s k (nth 0 win 0))
  end.

Definition compress (h : state) (block : list Z) : state :=
  let s := rounds K block h in
  State (add32 (sa h) (sa s)) (add32 (sb h) (sb s)) (add32 (sc h) (sc s))
        (add32 (sd h) (sd s)) (add32 (se h) (se s)) (add32 (sf h) (sf s))
        (add32 (sg h) (sg s)) (add32 (sh h) (sh s)).

(** Big-endian grouping of bytes into 32-bit words. *)
Fixpoint words (bytes : list Z) : list Z :=
  match bytes with
  | b0 :: b1 :: b2 :: b3 :: rest =>
      (b0 * 2 ^ 24 + b1 * 2 ^ 16 + b2 * 2 ^ 8 + b3) :: words rest
  | _ => []
  end.

Definition be64 (n : Z) : list Z :=
  List.map (fun i => Z.shiftr n (8 * i) mod 256) [7; 6; 5; 4; 3; 2; 1; 0].

Definition pad (msg : list Z) : list Z :=
  let len := Z.of_nat (List.length msg) in
  msg ++ [0x80] ++ List.repeat 0 (Z.to_nat ((55 - len) mod 64)) ++ be64 (8 * len).

Fixpoint blocks (fuel : nat) (ws : list Z) (h : state) : state :=
  match fuel with
  | O => h
  | S fuel' =>
      match ws with
      | [] => h
      | _ => blocks fuel' (List.skipn 16 ws) (compress h (List.firstn 16 ws))
      end
  end.

Definition digest (msg : list Z) : state :=
  let ws := words (pad msg) in
  blocks (List.length ws) ws H0.

Definition hex_digit (n : Z) : ascii :=
  nth (Z.to_nat (n mod 16))
      (list_ascii_of_string "0123456789abcdef") "0"%char.

Definition hex_word (w : Z) (rest : string) : string :=
  String (hex_digit (Z.shiftr w 28)) (String (hex_digit (Z.shiftr w 24))
 (String (hex_digit (Z.shiftr w 20)) (String (hex_digit (Z.shiftr w 16))
 (String (hex_digit (Z.shiftr w 12)) (String (hex_digit (Z.shiftr w 8))
 (String (hex_digit (Z.shiftr w 4)) (String (hex_digit w) rest))))))).

Definition hex_state (s : state) : string :=
  hex_word (sa s) (hex_word (sb s) (hex_word (sc s) (hex_word (sd s)
 (hex_word (se s) (hex_word (sf s) (hex_word (sg s) (hex_word (sh s) ""))))))).

(** [str.encode()]: the bytes of the string. *)
Definition encode (s : string) : list Z :=
  List.map (fun c => Z.of_N (N_of_ascii c)) (list_ascii_of_string s).

Definition hexdigest (s : string) : string := hex_state (digest (encode s)).

End SHA256.

(** * Numbers and strings *)

Local Open Scope Qc_scope.

(** The literal [0.01], default interest rate of a savings account. *)
Definition one_percent : Qc := Q2Qc (1 # 100).

(** [str.lower], on ASCII letters. *)
Definition lower_ascii (c : ascii) : ascii :=
  let n := nat_of_ascii c in
  if ((65 <=? n) && (n <=? 90))%nat then ascii_of_nat (n + 32) else c.

Fixpoint lower (s : string) : string :=
  match s with
  | EmptyString => EmptyString
  | String c s' => String (lower_ascii c) (lower s')
  end.

(** The slice [s[:8]]. *)
Definition prefix8 (s : string) : string := substring 0 8 s.

(** * JSON values exchanged with [json.dump] and [json.load]

    A record of either file is a dictionary from field names to values; a
    file is the sequence of its records with their keys, in file order. *)

#[local] Set Warnings "-register-all".
Inductive json : Type :=
| JBool (b : bool)
| JInt (n : Z)
| JFloat (q : Qc)
| JStr (s : string)
| JList (l : list json).

Abbreviation jrecord := (gmap string json).
Abbreviation jfile := (list (string * gmap string json)).

Definition as_str (j : json) : option string :=
  match j with JStr s => Some s | _ => None end.
Definition as_num (j : json) : option Qc :=
  match j with JFloat q => Some q | JInt n => Some (Qc_of_Z n) | _ => None end.
Definition as_int (j : json) : option Z :=
  match j with JInt n => Some n | _ => None end.
Definition as_bool (j : json) : option bool :=
  match j with JBool b => Some b | _ => None end.
(** The comparison [j == s] of a loaded value with a string literal. *)
Definition is_str (j : json) (s : string) : bool :=
  match j with JStr s' => bool_decide (s' = s) | _ => false end.
Definition as_strs (j : json) : option (list string) :=
  match j with JList l => mapM as_str l | _ => None end.

(** * class Account, with its subclasses as variants *)

Module Account.

Inductive variant : Type :=
| Savings (interest_rate : Qc)
| Checking (overdraft_limit : Qc).

Record t : Type := mk {
  account_number : string;
  account_holder_id : string;
  balance : Qc;
  password_hash : string;
  failed_attempts : Z;
  is_locked : bool;
  kind : variant
}.

Definition set_balance (v : Qc) (self : t) : t :=
  mk (account_number self) (account_holder_id self) v (password_hash self)
     (failed_attempts self) (is_locked self) (kind self).
Definition set_password_hash (v : string) (self : t) : t :=
  mk (account_number self) (account_holder_id self) (balance self) v
     (failed_attempts self) (is_locked self) (kind self).
Definition set_failed_attempts (v : Z) (self : t) : t :=
  mk (account_number self) (account_holder_id self) (balance self) (password_hash self)
     v (is_locked self) (kind self).
Definition set_is_locked (v : bool) (self : t) : t :=
  mk (account_number self) (account_holder_id self) (balance self) (password_hash self)
     (failed_attempts self) v (kind self).

Definition _hash_password (password : string) : string :=
  SHA256.hexdigest password.

(** [Account.__init__], called by both subclasses with their own field. *)
Definition init (account_number account_holder_id : string) (initial_balance : Qc)
    (password : string) (k : variant) : t :=
  {| account_number := account_number;
     account_holder_id := account_holder_id;
     balance := initial_balance;
     password_hash :=
       match password with
       | EmptyString => EmptyString
       | _ => _hash_password password
       end;
     failed_attempts := 0;
     is_locked := false;
     kind := k |}.

Definition verify_password (self : t) (password : string) : bool * t :=
  if is_locked self then (false, self)
  else if bool_decide (password_hash self = _hash_password password) then
    (true, set_failed_attempts 0 self)
  else
    let self1 := set_failed_attempts (failed_attempts self + 1) self in
    let self2 :=
      if bool_decide (3 ≤ failed_attempts self1)%Z then set_is_locked true self1
      else self1 in
    (false, self2).

(** [Account.to_dict], the part shared by the subclasses. *)
Definition base_to_dict (self : t) : jrecord :=
  list_to_map
    [ ("account_number"%string, JStr (account_number self));
      ("account_holder_id"%string, JStr (account_holder_id self));
      ("balance"%string, JFloat (balance self));
      ("password_hash"%string, JStr (password_hash self));
      ("failed_attempts"%string, JInt (failed_attempts self));
      ("is_locked"%string, JBool (is_locked self)) ].

End Account.

Module SavingsAccount.
Import Account.

Definition init (account_number account_holder_id : string) (initial_balance : Qc)
    (password : string) (interest_rate : Qc) : Account.t :=
  Account.init account_number account_holder_id initial_balance password
               (Savings interest_rate).

Definition deposit (self : Account.t) (amount : Qc) : bool * Account.t :=
  if bool_decide (0 < amount) then (true, set_balance (balance self + amount) self)
  else (false, self).

Definition withdraw (self : Account.t) (amount : Qc) : bool * Account.t :=
  if bool_decide (0 < amount) && bool_decide (amount ≤ balance self) then
    (true, set_balance (balance self - amount) self)
  else (false, self).

Definition apply_interest (self : Account.t) (interest_rate : Qc) : Account.t :=
  set_balance (balance self + balance self * interest_rate) self.

Definition to_dict (self : Account.t) (interest_rate : Qc) : jrecord :=
  <["interest_rate"%string := JFloat interest_rate]>
    (<["type"%string := JStr "savings"]> (base_to_dict self)).

End SavingsAccount.

Module CheckingAccount.
Import Account.

Definition init (account_number account_holder_id : string) (initial_balance : Qc)
    (password : string) (overdraft_limit : Qc) : Account.t :=
  Account.init account_number account_holder_id initial_balance password
               (Checking overdraft_limit).

Definition deposit (self : Account.t) (amount : Qc) : bool * Account.t :=
  if bool_decide (0 < amount) then (true, set_balance (balance self + amount) self)
  else (false, self).

Definition withdraw (self : Account.t) (overdraft_limit : Qc) (amount : Qc)
    : bool * Account.t :=
  if bool_decide (0 < amount)
     && bool_decide (- overdraft_limit ≤ balance self - amount) then
    (true, set_balance (balance self - amount) self)
  else (false, self).

Definition to_dict (self : Account.t) (overdraft_limit : Qc) : jrecord :=
  <["overdraft_limit"%string := JFloat overdraft_limit]>
    (<["type"%string := JStr "checking"]> (base_to_dict self)).

End CheckingAccount.

(** * Method calls on an account of either class (dynamic dispatch) *)

Module AnyAccount.

Definition deposit (self : Account.t) (amount : Qc) : bool * Account.t :=
  match Account.kind self with
  | Account.Savings _ => SavingsAccount.deposit self amount
  | Account.Checking _ => CheckingAccount.deposit self amount
  end.

Definition withdraw (self : Account.t) (amount : Qc) : bool * Account.t :=
  match Account.kind self with
  | Account.Savings _ => SavingsAccount.withdraw self amount
  | Account.Checking overdraft_limit =>
      CheckingAccount.withdraw self overdraft_limit amount
  end.

Definition to_dict (self : Account.t) : jrecord :=
  match Account.kind self with
  | Account.Savings interest_rate => SavingsAccount.to_dict self interest_rate
  | Account.Checking overdraft_limit => CheckingAccount.to_dict self overdraft_limit
  end.

(** The body of the loop of [Bank.apply_all_interest]:
    [if isinstance(account, SavingsAccount): account.apply_interest()]. *)
Definition apply_interest_if_savings (self : Account.t) : Account.t :=
  match Account.kind self with
  | Account.Savings interest_rate => SavingsAccount.apply_interest self interest_rate
  | Account.Checking _ => self
  end.

(** The least balance a withdrawal may leave (the floor of the account). *)
Definition floor (self : Account.t) : Qc :=
  match Account.kind self with
  | Account.Savings _ => 0
  | Account.Checking overdraft_limit => - overdraft_limit
  end.

End AnyAccount.

(** * class Customer *)

Module Customer.

Record t : Type := mk {
  customer_id : string;
  name : string;
  address : string;
  account_numbers : list string
}.

Definition init (customer_id name address : string) : t :=
  mk customer_id name address [].

Definition add_account_number (self : t) (account_number : string) : t :=
  if bool_decide (account_number ∈ account_numbers self) then self
  else mk (customer_id self) (name self) (address self)
          (account_numbers self ++ [account_number]).

(** [list.remove] drops the first occurrence. *)
Fixpoint list_remove (x : string) (l : list string) : list string :=
  match l with
  | [] => []
  | y :: l' => if bool_decide (y = x) then l' else y :: list_remove x l'
  end.

Definition remove_account_number (self : t) (account_number : string) : t :=
  if bool_decide (account_number ∈ account_numbers self) then
    mk (customer_id self) (name self) (address self)
       (list_remove account_number (account_numbers self))
  else self.

Definition to_dict (self : t) : jrecord :=
  list_to_map
    [ ("customer_id"%string, JStr (customer_id self));
      ("name"%string, JStr (name self));
      ("address"%string, JStr (address self));
      ("account_numbers"%string, JList (JStr <$> account_numbers self)) ].

End Customer.

(** * class Bank *)

Module Bank.

(** The content of the two files; [None] is a file that does not exist. *)
Record files : Type := mk_files {
  customer_file : option jfile;
  account_file : option jfile
}.

Record t : Type := mk {
  customers : gmap string Customer.t;
  accounts : gmap string Account.t;
  disk : files
}.

Definition set_customers (v : gmap string Customer.t) (self : t) : t :=
  mk v (accounts self) (disk self).
Definition set_accounts (v : gmap string Account.t) (self : t) : t :=
  mk (customers self) v (disk self).
Definition set_disk (v : files) (self : t) : t :=
  mk (customers self) (accounts self) v.

(** ** Persistence *)

(** What [_save_data] writes for the present dictionaries. *)
Definition snapshot (self : t) : files :=
  {| customer_file := Some (map_to_list (Customer.to_dict <$> customers self));
     account_file := Some (map_to_list (AnyAccount.to_dict <$> accounts self)) |}.

Definition _save_data (self : t) : t := set_disk (snapshot self) self.

(** One record of the customer file; [None] is the [KeyError] of a
    missing field (or a field of another type than the program writes). *)
Definition load_customer (customer_data : jrecord) : option Customer.t :=
  customer_id ← customer_data !! "customer_id"%string ≫= as_str;
  name ← customer_data !! "name"%string ≫= as_str;
  address ← customer_data !! "address"%string ≫= as_str;
  account_numbers ← customer_data !! "account_numbers"%string ≫= as_strs;
  Some (foldl Customer.add_account_number
              (Customer.init customer_id name address) account_numbers).

Fixpoint load_customers (data : list jrecord) (customers : gmap string Customer.t)
    : option (gmap string Customer.t) :=
  match data with
  | [] => Some customers
  | customer_data :: data' =>
      customer ← load_customer customer_data;
      load_customers data' (<[Customer.customer_id customer := customer]> customers)
  end.

(** The three fields restored after construction, with the defaults of
    [dict.get]. *)
Definition restore_security (acc_data : jrecord) (account : Account.t)
    : option Account.t :=
  password_hash ← match acc_data !! "password_hash"%string with
                  | Some j => as_str j
                  | None => Some EmptyString
                  end;
  failed_attempts ← match acc_data !! "failed_attempts"%string with
                    | Some j => as_int j
                    | None => Some 0%Z
                    end;
  is_locked ← match acc_data !! "is_locked"%string with
              | Some j => as_bool j
              | None => Some false
              end;
  Some (Account.set_is_locked is_locked
         (Account.set_failed_attempts failed_attempts
           (Account.set_password_hash password_hash account))).

(** One record of the account file: [Some None] when the record is
    skipped for its unknown type ([continue]). *)
Definition load_account (acc_data : jrecord) : option (option Account.t) :=
  type ← acc_data !! "type"%string;
  if is_str type "savings" then
    account_number ← acc_data !! "account_number"%string ≫= as_str;
    account_holder_id ← acc_data !! "account_holder_id"%string ≫= as_str;
    balance ← acc_data !! "balance"%string ≫= as_num;
    interest_rate ← acc_data !! "interest_rate"%string ≫= as_num;
    Some <$> restore_security acc_data
      (SavingsAccount.init account_number account_holder_id balance "" interest_rate)
  else if is_str type "checking" then
    account_number ← acc_data !! "account_number"%string ≫= as_str;
    account_holder_id ← acc_data !! "account_holder_id"%string ≫= as_str;
    balance ← acc_data !! "balance"%string ≫= as_num;
    overdraft_limit ← acc_data !! "overdraft_limit"%string ≫= as_num;
    Some <$> restore_security acc_data
      (CheckingAccount.init account_number account_holder_id balance "" overdraft_limit)
  else Some None.

Fixpoint load_accounts (data : list jrecord) (accounts : gmap string Account.t)
    : option (gmap string Account.t) :=
  match data with
  | [] => Some accounts
  | acc_data :: data' =>
      r ← load_account acc_data;
      match r with
      | Some account =>
          load_accounts data' (<[Account.account_number account := account]> accounts)
      | None => load_accounts data' accounts
      end
  end.

(** [_load_data] on the empty dictionaries of [__init__]; a file that does
    not exist leaves its dictionary empty. *)
Definition _load_data (d : files) : option (gmap string Customer.t * gmap string Account.t) :=
  customers ← match customer_file d with
              | Some customers_data => load_customers customers_data.*2 ∅
              | None => Some ∅
              end;
  accounts ← match account_file d with
             | Some accounts_data => load_accounts accounts_data.*2 ∅
             | None => Some ∅
             end;
  Some (customers, accounts).

(** [Bank.__init__]. *)
Definition init (d : files) : option t :=
  '(customers, accounts) ← _load_data d;
  Some (mk customers accounts d).

(** ** Operations *)

Definition add_customer (self : t) (customer : Customer.t) : bool * t :=
  if bool_decide (is_Some (customers self !! Customer.customer_id customer)) then
    (false, self)
  else
    (true, _save_data
             (set_customers
                (<[Customer.customer_id customer := customer]> (customers self)) self)).

(** The list [accounts_with_balance] built by [remove_customer]. *)
Definition accounts_with_balance (self : t) (account_numbers : list string)
    : list (string * Qc) :=
  omap (λ acc_num,
          match accounts self !! acc_num with
          | Some account =>
              if bool_decide (Account.balance account ≠ 0)
              then Some (acc_num, Account.balance account) else None
          | None => None
          end) account_numbers.

(** The loop [for account_number in accounts_to_remove]. *)
Definition remove_accounts (accounts_to_remove : list string)
    (accounts : gmap string Account.t) : gmap string Account.t :=
  foldl (λ accounts account_number,
           if bool_decide (is_Some (accounts !! account_number))
           then delete account_number accounts else accounts)
        accounts accounts_to_remove.

(** [choice] and [confirm] are the answers to the two calls of [input];
    each is read only on the path that asks for it. *)
Definition remove_customer (self : t) (customer_id : string) (choice confirm : string)
    : bool * t :=
  match customers self !! customer_id with
  | None => (false, self)
  | Some customer =>
      let finish (self : t) : bool * t :=
        (true, _save_data (set_customers (delete customer_id (customers self)) self)) in
      match Customer.account_numbers customer with
      | [] => finish self
      | _ =>
          if bool_decide (choice = "1"%string) then (false, self)
          else if bool_decide (choice = "2"%string) then
            match accounts_with_balance self (Customer.account_numbers customer) with
            | _ :: _ =>
                if bool_decide (confirm ≠ "CONFIRM"%string) then (false, self)
                else finish (set_accounts
                               (remove_accounts (Customer.account_numbers customer)
                                                (accounts self)) self)
            | [] =>
                finish (set_accounts
                          (remove_accounts (Customer.account_numbers customer)
                                           (accounts self)) self)
            end
          else (false, self)
      end
  end.

(** [uuid4] is the text of the random identifier, [str(uuid.uuid4())];
    [kwargs] holds the optional keyword arguments. *)
Definition create_account (self : t) (customer_id account_type : string)
    (initial_balance : Qc) (password : string) (kwargs : gmap string Qc)
    (uuid4 : string) : option Account.t * t :=
  match customers self !! customer_id with
  | None => (None, self)
  | Some customer =>
      let account_number := prefix8 uuid4 in
      let register (account : Account.t) : option Account.t * t :=
        (Some account,
         _save_data
           (mk (<[customer_id :=
                    Customer.add_account_number customer account_number]>
                  (customers self))
               (<[account_number := account]> (accounts self))
               (disk self))) in
      if bool_decide (lower account_type = "savings"%string) then
        register (SavingsAccount.init account_number customer_id initial_balance
                    password (default one_percent (kwargs !! "interest_rate"%string)))
      else if bool_decide (lower account_type = "checking"%string) then
        register (CheckingAccount.init account_number customer_id initial_balance
                    password (default 0 (kwargs !! "overdraft_limit"%string)))
      else (None, self)
  end.

(** The object stored under [account_number] is mutated in place: the
    dictionary sees its new state. *)
Definition store (account_number : string) (account : Account.t) (self : t) : t :=
  set_accounts (<[account_number := account]> (accounts self)) self.

Definition deposit (self : t) (account_number : string) (amount : Qc) : bool * t :=
  match accounts self !! account_number with
  | None => (false, self)
  | Some account =>
      let '(success, account) := AnyAccount.deposit account amount in
      let self := store account_number account self in
      if success then (true, _save_data self) else (false, self)
  end.

(** [password] is what [getpass] returns; it is read only when the
    account is known and not locked. *)
Definition withdraw (self : t) (account_number : string) (amount : Qc)
    (password : string) : bool * t :=
  match accounts self !! account_number with
  | None => (false, self)
  | Some account =>
      if Account.is_locked account then (false, self)
      else
        let '(verified, account) := Account.verify_password account password in
        let self := store account_number account self in
        if negb verified then (false, _save_data self)
        else
          let '(success, account) := AnyAccount.withdraw account amount in
          let self := store account_number account self in
          if success then (true, _save_data self) else (false, self)
  end.

(** The [return] statements of [transfer_funds], in source order. *)
Inductive transfer_exit : Type :=
| ExitUnknownAccount
| ExitBadAmount
| ExitSourceLocked
| ExitWrongPassword
| ExitTransferred
| ExitRolledBack
| ExitWithdrawRefused.

(** [transfer_funds], with the [return] it leaves through.  [to_acc] is
    read from the dictionary after the source was mutated: it is the
    source object itself when the two numbers are equal. *)
Definition transfer_funds_exit (self : t) (from_acc_num to_acc_num : string)
    (amount : Qc) (password : string) : transfer_exit * t :=
  match accounts self !! from_acc_num, accounts self !! to_acc_num with
  | Some from_acc, Some _ =>
      if bool_decide (amount ≤ 0) then (ExitBadAmount, self)
      else if Account.is_locked from_acc then (ExitSourceLocked, self)
      else
        let '(verified, from_acc) := Account.verify_password from_acc password in
        let self := store from_acc_num from_acc self in
        if negb verified then (ExitWrongPassword, _save_data self)
        else
          let '(withdrawn, from_acc) := AnyAccount.withdraw from_acc amount in
          let self := store from_acc_num from_acc self in
          if negb withdrawn then (ExitWithdrawRefused, self)
          else
            match accounts self !! to_acc_num with
            | None => (ExitUnknownAccount, self)
            | Some to_acc =>
                let '(deposited, to_acc) := AnyAccount.deposit to_acc amount in
                let self := store to_acc_num to_acc self in
                if deposited then (ExitTransferred, _save_data self)
                else
                  match accounts self !! from_acc_num with
                  | None => (ExitUnknownAccount, self)
                  | Some from_acc =>
                      let '(_, from_acc) := AnyAccount.deposit from_acc amount in
                      (ExitRolledBack, store from_acc_num from_acc self)
                  end
            end
  | _, _ => (ExitUnknownAccount, self)
  end.

Definition transfer_funds (self : t) (from_acc_num to_acc_num : string)
    (amount : Qc) (password : string) : bool * t :=
  let '(exit, self') := transfer_funds_exit self from_acc_num to_acc_num amount password in
  (match exit with ExitTransferred => true | _ => false end, self').

Definition get_customer_accounts (self : t) (customer_id : string) : list Account.t :=
  match customers self !! customer_id with
  | None => []
  | Some customer =>
      omap (λ acc_num, accounts self !! acc_num) (Customer.account_numbers customer)
  end.

Definition apply_all_interest (self : t) : t :=
  _save_data (set_accounts (AnyAccount.apply_interest_if_savings <$> accounts self) self).

(** The sum of all balances. *)
Definition total_balance (self : t) : Qc :=
  map_fold (λ _ account total, Account.balance account + total) 0 (accounts self).

End Bank.

(** * Sequences of operations and reachable states *)

Inductive operation : Type :=
| AddCustomer (customer : Customer.t)
| RemoveCustomer (customer_id choice confirm : string)
| CreateAccount (customer_id account_type : string) (initial_balance : Qc)
    (password : string) (kwargs : gmap string Qc) (uuid4 : string)
| Deposit (account_number : string) (amount : Qc)
| Withdraw (account_number : string) (amount : Qc) (password : string)
| TransferFunds (from_acc_num to_acc_num : string) (amount : Qc) (password : string)
| ApplyAllInterest.

(** The state of the bank after one operation. *)
Definition run (self : Bank.t) (op : operation) : Bank.t :=
  match op with
  | AddCustomer customer => (Bank.add_customer self customer).2
  | RemoveCustomer customer_id choice confirm =>
      (Bank.remove_customer self customer_id choice confirm).2
  | CreateAccount customer_id account_type initial_balance password kwargs uuid4 =>
      (Bank.create_account self customer_id account_type initial_balance password
         kwargs uuid4).2
  | Deposit account_number amount => (Bank.deposit self account_number amount).2
  | Withdraw account_number amount password =>
      (Bank.withdraw self account_number amount password).2
  | TransferFunds from_acc_num to_acc_num amount password =>
      (Bank.transfer_funds self from_acc_num to_acc_num amount password).2
  | ApplyAllInterest => Bank.apply_all_interest self
  end.

(** A bank started with no file on disk. *)
Definition new_bank : Bank.t := Bank.mk ∅ ∅ (Bank.mk_files None None).

(** The states reached from [start] by operations that satisfy [allowed]. *)
Inductive reachable_by (allowed : operation → Prop) (start : Bank.t) : Bank.t → Prop :=
| reachable_start : reachable_by allowed start start
| reachable_run self op :
    reachable_by allowed start self → allowed op →
    reachable_by allowed start (run self op).

(** [Customer] keeps its list private and extends it only through
    [add_account_number]: a customer object handed to [add_customer] holds
    no account number twice. *)
Definition customer_object (op : operation) : Prop :=
  match op with
  | AddCustomer customer => NoDup (Customer.account_numbers customer)
  | _ => True
  end.

(** The states of a run of the program: [Bank()] loads whatever files it
    finds, then operations follow. *)
Definition reachable (self : Bank.t) : Prop :=
  ∃ d start, Bank.init d = Some start ∧ reachable_by customer_object start self.

(** The account that [create_account] builds, when it builds one. *)
Definition new_account (op : operation) : option Account.t :=
  match op with
  | CreateAccount customer_id account_type initial_balance password kwargs uuid4 =>
      if bool_decide (lower account_type = "savings"%string) then
        Some (SavingsAccount.init (prefix8 uuid4) customer_id initial_balance password
                (default one_percent (kwargs !! "interest_rate"%string)))
      else if bool_decide (lower account_type = "checking"%string) then
        Some (CheckingAccount.init (prefix8 uuid4) customer_id initial_balance password
                (default 0 (kwargs !! "overdraft_limit"%string)))
      else None
  | _ => None
  end.



(** One method call on an account object, and any number of them: the
    ways the bank mutates an account it holds. *)
Inductive method_call (self : Account.t) : Account.t → Prop :=
| call_verify_password password :
    method_call self (Account.verify_password self password).2
| call_deposit amount : method_call self (AnyAccount.deposit self amount).2
| call_withdraw amount : method_call self (AnyAccount.withdraw self amount).2
| call_apply_interest : method_call self (AnyAccount.apply_interest_if_savings self).

Inductive mutated (self : Account.t) : Account.t → Prop :=
| mutated_refl : mutated self self
| mutated_call self' self'' :
    mutated self self' → method_call self' self'' → mutated self self''.

(** The accounts of [self'] are accounts of [self], mutated in place. *)
Definition same_objects (self self' : Bank.t) : Prop :=
  ∀ k account', Bank.accounts self' !! k = Some account' →
    ∃ account, Bank.accounts self !! k = Some account ∧ mutated account account'.

(** The account after a series of password checks, one per typed password. *)
Definition attempts (self : Account.t) (passwords : list string) : Account.t :=
  foldl (λ self password, (Account.verify_password self password).2) self passwords.





(** ** A small bank for the examples *)

Definition alice : Customer.t := Customer.init "c1" "Alice" "1 Main Street".
Definition uuid_a : string := "1b4e28ba-2fa1-4d3b-a3f5-ef19b5a7633b".
Definition uuid_b : string := "6fa459ea-ee8a-4ca4-894e-db77e160355e".

(** Alice with a savings account of 100 under ["1b4e28ba"] and a checking
    account of 50, overdraft limit 20, under ["6fa459ea"]. *)
Definition demo_operations : list operation :=
  [ AddCustomer alice;
    CreateAccount "c1" "savings" (Qc_of_Z 100) "secret" ∅ uuid_a;
    CreateAccount "c1" "Checking" (Qc_of_Z 50) "hunter2"
      {[ "overdraft_limit"%string := Qc_of_Z 20 ]} uuid_b ].

Definition demo_bank : Bank.t := foldl run new_bank demo_operations.


(** What a restart of the program would read for an account: its count of
    failed attempts in the files. *)
Definition saved_failed_attempts (self : Bank.t) (account_number : string) : option Z :=
  '(_, accounts) ← Bank._load_data (Bank.disk self);
  Account.failed_attempts <$> accounts !! account_number.

(** A customer owns an account that still holds money. *)
Definition holds_money (self : Bank.t) (customer : Customer.t) : Prop :=
  ∃ acc_num account,
    acc_num ∈ Customer.account_numbers customer
    ∧ Bank.accounts self !! acc_num = Some account
    ∧ Account.balance account ≠ 0.

(** The answers that stop [remove_customer] for a customer with accounts:
    the choice to cancel, a choice that is neither 1 nor 2, and, when money
    is held, a confirmation that is not the literal CONFIRM. *)
Definition cancelled (self : Bank.t) (customer : Customer.t) (choice confirm : string)
    : Prop :=
  Customer.account_numbers customer ≠ []
  ∧ (choice = "1"%string
     ∨ (choice ≠ "1"%string ∧ choice ≠ "2"%string)
     ∨ (choice = "2"%string ∧ holds_money self customer ∧ confirm ≠ "CONFIRM"%string)).

(** Every customer is stored under its own identifier and lists no account
    number twice; every account is stored under its own number. *)
Definition customer_wf (k : string) (customer : Customer.t) : Prop :=
  Customer.customer_id customer = k ∧ NoDup (Customer.account_numbers customer).

Definition account_wf (k : string) (account : Account.t) : Prop :=
  Account.account_number account = k.

Definition well_keyed (self : Bank.t) : Prop :=
  map_Forall customer_wf (Bank.customers self)
  ∧ map_Forall account_wf (Bank.accounts self).

(** ** Definitions for the rest of the program *)

(** Every account is stored under its own number and owned by a customer
    of the bank who lists that number. *)
Definition owned (self : Bank.t) : Prop :=
  ∀ k account, Bank.accounts self !! k = Some account →
    Account.account_number account = k
    ∧ ∃ customer,
        Bank.customers self !! Account.account_holder_id account = Some customer
        ∧ k ∈ Customer.account_numbers customer.

(** The security fields of an account that the program created: unlocked
    with at most two failed attempts, or locked with three. *)
Definition attempts_ok (account : Account.t) : Prop :=
  (Account.is_locked account = false
   ∧ (0 ≤ Account.failed_attempts account ≤ 2)%Z)
  ∨ (Account.is_locked account = true ∧ Account.failed_attempts account = 3%Z).

(** Any operation at all. *)
Definition any_operation (op : operation) : Prop := True.

(** What an operation reports to its caller: the boolean it returns, an
    account rather than [None] for [create_account]; [apply_all_interest]
    returns nothing and cannot fail. *)
Definition reports_success (self : Bank.t) (op : operation) : bool :=
  match op with
  | AddCustomer customer => (Bank.add_customer self customer).1
  | RemoveCustomer customer_id choice confirm =>
      (Bank.remove_customer self customer_id choice confirm).1
  | CreateAccount customer_id account_type initial_balance password kwargs uuid4 =>
      match (Bank.create_account self customer_id account_type initial_balance
               password kwargs uuid4).1 with
      | Some _ => true
      | None => false
      end
  | Deposit account_number amount => (Bank.deposit self account_number amount).1
  | Withdraw account_number amount password =>
      (Bank.withdraw self account_number amount password).1
  | TransferFunds from_acc_num to_acc_num amount password =>
      (Bank.transfer_funds self from_acc_num to_acc_num amount password).1
  | ApplyAllInterest => true
  end.

(** Files as another program could have left them: a customer stored under
    a key that is not its identifier and listing a number twice, an account
    record without security fields and a record of an unknown type. *)
Definition messy_files : Bank.files :=
  Bank.mk_files
    (Some [ ("k1"%string,
             list_to_map
               [ ("customer_id"%string, JStr "c9");
                 ("name"%string, JStr "Zed");
                 ("address"%string, JStr "2 Side Street");
                 ("account_numbers"%string, JList [JStr "a"; JStr "a"; JStr "b"]) ]) ])
    (Some [ ("zz"%string,
             list_to_map
               [ ("type"%string, JStr "savings");
                 ("account_number"%string, JStr "a");
                 ("account_holder_id"%string, JStr "c9");
                 ("balance"%string, JInt 10);
                 ("interest_rate"%string, JFloat one_percent) ]);
            ("yy"%string, list_to_map [ ("type"%string, JStr "loan") ]) ]).

(** A lowercase hexadecimal digit. *)
Definition is_hex (c : ascii) : Prop :=
  c ∈ list_ascii_of_string "0123456789abcdef".

(** The savings account of the example bank, as [create_account] built it. *)
Definition demo_savings : Account.t :=
  SavingsAccount.init "1b4e28ba" "c1" (Qc_of_Z 100) "secret" one_percent.

(** * Proofs *)

(** Order facts on [Qc] are sent to [Q], where [lra] decides them. *)
Ltac qc_lra :=
  unfold Qcle, Qclt, Qcminus, Qcopp, Qcplus, Qcmult, Q2Qc in *; simpl in *;
  rewrite ?Qred_correct in *; lra.


(** ** Account methods *)

Section account_methods.
Import Account.
Implicit Types (self : Account.t) (amount : Qc) (password : string).

Lemma deposit_unfold self amount :
  AnyAccount.deposit self amount =
    if bool_decide (0 < amount) then (true, set_balance (balance self + amount) self)
    else (false, self).
Proof. unfold AnyAccount.deposit. by destruct (kind self). Qed.

Lemma deposit_true self amount :
  0 < amount →
  AnyAccount.deposit self amount = (true, set_balance (balance self + amount) self).
Proof. intros. rewrite deposit_unfold. by rewrite bool_decide_eq_true_2. Qed.

Lemma withdraw_unfold self amount :
  AnyAccount.withdraw self amount =
    if bool_decide (0 < amount)
       && bool_decide (AnyAccount.floor self ≤ balance self - amount)
    then (true, set_balance (balance self - amount) self)
    else (false, self).
Proof.
  unfold AnyAccount.withdraw, AnyAccount.floor,
    SavingsAccount.withdraw, CheckingAccount.withdraw.
  destruct (kind self); [|done].
  assert (bool_decide (amount ≤ balance self)
          = bool_decide (0 ≤ balance self - amount)) as ->; [|done].
  apply bool_decide_ext. split; intros; qc_lra.
Qed.

Lemma withdraw_true_inv self amount self' :
  AnyAccount.withdraw self amount = (true, self') →
  0 < amount ∧ AnyAccount.floor self ≤ balance self - amount
  ∧ self' = set_balance (balance self - amount) self.
Proof.
  rewrite withdraw_unfold.
  destruct (bool_decide (0 < amount)) eqn:Hpos; simpl; [|done].
  destruct (bool_decide (_ ≤ _)) eqn:Hfl; simpl; [|done].
  apply bool_decide_eq_true in Hpos, Hfl. by intros [= <-].
Qed.

Lemma withdraw_false_inv self amount self' :
  AnyAccount.withdraw self amount = (false, self') → self' = self.
Proof.
  rewrite withdraw_unfold. by destruct (_ && _); intros [= <-].
Qed.

End account_methods.


(** Scenario B of the specification: a checking account with balance 50 and
    overdraft limit 20 grants a withdrawal of 60 and then refuses one of 20. *)
Example withdraw_scenario_B :
  let account := CheckingAccount.init "a" "c" (Qc_of_Z 50) "pw" (Qc_of_Z 20) in
  let '(first, account1) := AnyAccount.withdraw account (Qc_of_Z 60) in
  let '(second, account2) := AnyAccount.withdraw account1 (Qc_of_Z 20) in
  first = true ∧ Account.balance account1 = Qc_of_Z (-10)
  ∧ second = false ∧ account2 = account1.
Proof. vm_compute. split_and!; try done. by apply Qc_is_canon. Qed.

(** ** The password check *)

Section verify_password.
Import Account.
Implicit Types (self : Account.t) (password : string).

Lemma verify_locked self password :
  is_locked self = true → verify_password self password = (false, self).
Proof. unfold verify_password. by intros ->. Qed.

Lemma verify_correct self password :
  is_locked self = false →
  password_hash self = _hash_password password →
  verify_password self password = (true, set_failed_attempts 0 self).
Proof.
  unfold verify_password. intros -> Hh. by rewrite bool_decide_eq_true_2.
Qed.

Lemma verify_wrong self password :
  is_locked self = false →
  password_hash self ≠ _hash_password password →
  verify_password self password =
    (false,
     set_is_locked (bool_decide (3 ≤ failed_attempts self + 1)%Z)
       (set_failed_attempts (failed_attempts self + 1) self)).
Proof.
  unfold verify_password. intros Hl Hh. rewrite Hl.
  rewrite bool_decide_eq_false_2 by done. simpl.
  case_bool_decide; [done|]. by destruct self; simplify_eq/=.
Qed.


Lemma verify_keeps_lock self password :
  is_locked self = true → is_locked (verify_password self password).2 = true.
Proof. intros Hl. by rewrite verify_locked. Qed.

Lemma verify_fields self password :
  let self' := (verify_password self password).2 in
  account_number self' = account_number self
  ∧ account_holder_id self' = account_holder_id self
  ∧ balance self' = balance self
  ∧ password_hash self' = password_hash self
  ∧ kind self' = kind self.
Proof.
  unfold verify_password. destruct (is_locked self); [done|].
  repeat case_bool_decide; done.
Qed.

(** The digest is 64 characters long, so it is never the empty string. *)
Lemma hash_not_empty password : _hash_password password ≠ EmptyString.
Proof. intros H. by apply (f_equal String.length) in H. Qed.

Lemma verify_empty_hash self password :
  password_hash self = EmptyString →
  (verify_password self password).1 = false
  ∧ password_hash (verify_password self password).2 = EmptyString.
Proof.
  intros Hh. split; [|by rewrite (proj1 (proj2 (proj2 (proj2 (verify_fields _ _)))))].
  unfold verify_password. destruct (is_locked self); [done|].
  rewrite Hh. rewrite bool_decide_eq_false_2; [done|].
  intros H. by apply (hash_not_empty password).
Qed.

End verify_password.

(** ** What method calls keep *)

Section mutated.
Import Account.

Lemma method_call_fields self self' :
  method_call self self' →
  account_number self' = account_number self
  ∧ account_holder_id self' = account_holder_id self
  ∧ password_hash self' = password_hash self
  ∧ kind self' = kind self
  ∧ (is_locked self = true → is_locked self' = true).
Proof.
  destruct 1 as [password|amount|amount|].
  - pose proof (verify_fields self password) as (? & ? & ? & ? & ?).
    split_and!; try done. apply verify_keeps_lock.
  - rewrite deposit_unfold. by case_bool_decide.
  - rewrite withdraw_unfold. by destruct (_ && _).
  - unfold AnyAccount.apply_interest_if_savings.
    by destruct (kind self) eqn:Hk.
Qed.

Lemma mutated_fields self self' :
  mutated self self' →
  account_number self' = account_number self
  ∧ account_holder_id self' = account_holder_id self
  ∧ password_hash self' = password_hash self
  ∧ kind self' = kind self
  ∧ (is_locked self = true → is_locked self' = true).
Proof.
  induction 1 as [|self' self'' _ IH Hcall]; [done|].
  apply method_call_fields in Hcall. naive_solver congruence.
Qed.

Lemma mutated_trans self1 self2 self3 :
  mutated self1 self2 → mutated self2 self3 → mutated self1 self3.
Proof. induction 2; eauto using mutated. Qed.

Lemma mutated_one self self' : method_call self self' → mutated self self'.
Proof. eauto using mutated. Qed.

End mutated.

(** ** What the operations of the bank do to the dictionary of accounts *)

Section same_objects.
Import Bank.
Implicit Types (self : Bank.t) (k account_number : string).

Lemma same_objects_refl self : same_objects self self.
Proof. intros k a' ?. eauto using mutated. Qed.

Lemma same_objects_trans self1 self2 self3 :
  same_objects self1 self2 → same_objects self2 self3 → same_objects self1 self3.
Proof.
  intros H12 H23 k a3 (a2 & (a1 & ? & ?)%H12 & ?)%H23.
  eauto using mutated_trans.
Qed.

Lemma same_objects_store self account_number account account' :
  accounts self !! account_number = Some account →
  mutated account account' →
  same_objects self (store account_number account' self).
Proof.
  intros Hk Hm k a'. unfold store; simpl. rewrite lookup_insert.
  case_decide; intros; simplify_eq; eauto using mutated.
Qed.

Lemma lookup_store_eq self account_number account :
  accounts (store account_number account self) !! account_number = Some account.
Proof. apply lookup_insert_eq. Qed.

Lemma same_objects_deposit self account_number amount :
  same_objects self (deposit self account_number amount).2.
Proof.
  unfold deposit. destruct (accounts self !! _) as [a|] eqn:Hk;
    [|apply same_objects_refl].
  destruct (AnyAccount.deposit a amount) as [success a1] eqn:Hd.
  assert (same_objects self (store account_number a1 self)).
  { eapply same_objects_store, mutated_one; [done|].
    replace a1 with (AnyAccount.deposit a amount).2 by (by rewrite Hd).
    constructor. }
  by destruct success.
Qed.

Lemma same_objects_withdraw self account_number amount password :
  same_objects self (withdraw self account_number amount password).2.
Proof.
  unfold withdraw. destruct (accounts self !! _) as [a|] eqn:Hk;
    [|apply same_objects_refl].
  destruct (Account.is_locked a); [apply same_objects_refl|].
  destruct (Account.verify_password a password) as [verified a1] eqn:Hv.
  assert (same_objects self (store account_number a1 self)) as H1.
  { eapply same_objects_store, mutated_one; [done|].
    replace a1 with (Account.verify_password a password).2 by (by rewrite Hv).
    constructor. }
  destruct verified; cbn [negb]; [|done].
  destruct (AnyAccount.withdraw a1 amount) as [success a2] eqn:Hw.
  assert (same_objects self (store account_number a2 (store account_number a1 self))).
  { eapply same_objects_trans; [done|].
    eapply same_objects_store, mutated_one; [apply lookup_store_eq|].
    replace a2 with (AnyAccount.withdraw a1 amount).2 by (by rewrite Hw).
    constructor. }
  by destruct success.
Qed.

Lemma same_objects_transfer_funds self from_acc_num to_acc_num amount password :
  same_objects self
    (transfer_funds_exit self from_acc_num to_acc_num amount password).2.
Proof.
  unfold transfer_funds_exit.
  destruct (accounts self !! from_acc_num) as [a|] eqn:Hf;
    [|apply same_objects_refl].
  destruct (accounts self !! to_acc_num) as [b|] eqn:Ht;
    [|apply same_objects_refl].
  case_bool_decide; [apply same_objects_refl|].
  destruct (Account.is_locked a); [apply same_objects_refl|].
  destruct (Account.verify_password a password) as [verified a1] eqn:Hv.
  set (self1 := store from_acc_num a1 self).
  assert (same_objects self self1) as H1.
  { eapply same_objects_store, mutated_one; [done|].
    replace a1 with (Account.verify_password a password).2 by (by rewrite Hv).
    constructor. }
  destruct verified; cbn [negb]; [|done].
  destruct (AnyAccount.withdraw a1 amount) as [withdrawn a2] eqn:Hw.
  set (self2 := store from_acc_num a2 self1).
  assert (same_objects self self2) as H2.
  { eapply same_objects_trans; [done|].
    eapply same_objects_store, mutated_one; [apply lookup_store_eq|].
    replace a2 with (AnyAccount.withdraw a1 amount).2 by (by rewrite Hw).
    constructor. }
  destruct withdrawn; cbn [negb]; [|done].
  destruct (accounts self2 !! to_acc_num) as [b1|] eqn:Ht2; [|done].
  destruct (AnyAccount.deposit b1 amount) as [deposited b2] eqn:Hd.
  set (self3 := store to_acc_num b2 self2).
  assert (same_objects self self3) as H3.
  { eapply same_objects_trans; [done|].
    eapply same_objects_store, mutated_one; [done|].
    replace b2 with (AnyAccount.deposit b1 amount).2 by (by rewrite Hd).
    constructor. }
  destruct deposited; [done|].
  destruct (accounts self3 !! from_acc_num) as [a3|] eqn:Hf3; [|done].
  destruct (AnyAccount.deposit a3 amount) as [? a4] eqn:Hd4. cbn [snd].
  eapply same_objects_trans; [done|].
  eapply same_objects_store, mutated_one; [done|].
  replace a4 with (AnyAccount.deposit a3 amount).2 by (by rewrite Hd4).
  constructor.
Qed.

Lemma same_objects_apply_all_interest self :
  same_objects self (apply_all_interest self).
Proof.
  intros k a'. unfold apply_all_interest; simpl. rewrite lookup_fmap.
  destruct (accounts self !! k) as [a|]; intros; simplify_eq/=.
  eexists; split; [done|]. apply mutated_one. constructor.
Qed.

Lemma remove_accounts_lookup accounts_to_remove (accounts : gmap string Account.t) k :
  remove_accounts accounts_to_remove accounts !! k =
    if bool_decide (k ∈ accounts_to_remove) then None else accounts !! k.
Proof.
  unfold remove_accounts.
  induction accounts_to_remove as [|n l IH] in accounts |- *; cbn [foldl].
  { by rewrite bool_decide_eq_false_2 by set_solver. }
  rewrite IH. clear IH.
  assert ((if bool_decide (is_Some (accounts !! n)) then delete n accounts else accounts)
          = delete n accounts) as ->.
  { case_bool_decide as Hn; [done|]. symmetry. apply delete_id.
    by apply eq_None_not_Some. }
  destruct (decide (k = n)) as [->|Hne].
  - rewrite lookup_delete_eq. rewrite (bool_decide_eq_true_2 (n ∈ n :: l)) by set_solver.
    by case_bool_decide.
  - rewrite lookup_delete_ne by done.
    apply (f_equal (λ b : bool, if b then None else accounts !! k)).
    apply bool_decide_ext. set_solver.
Qed.

Lemma same_objects_remove_customer self customer_id choice confirm :
  same_objects self (remove_customer self customer_id choice confirm).2.
Proof.
  assert (∀ l self', accounts self' = remove_accounts l (accounts self) →
                     same_objects self self') as Hrm.
  { intros l self' Heq k a'. rewrite Heq, remove_accounts_lookup.
    case_bool_decide; [done|]. eauto using mutated. }
  assert (∀ self', accounts self' = accounts self → same_objects self self') as Hid.
  { intros self' Heq k a'. rewrite Heq. eauto using mutated. }
  unfold remove_customer.
  destruct (customers self !! customer_id) as [c|]; [|by apply Hid].
  destruct (Customer.account_numbers c) as [|n l] eqn:Hl; [by apply Hid|].
  repeat case_bool_decide; try (by apply Hid);
    destruct (accounts_with_balance _ _); try (by apply Hid);
    by apply (Hrm (n :: l)).
Qed.

(** Every account of the bank after an operation is either an account it
    held before, mutated by method calls, or the one just created. *)
Lemma run_accounts self op k account' :
  accounts (run self op) !! k = Some account' →
  (∃ account, accounts self !! k = Some account ∧ mutated account account')
  ∨ (new_account op = Some account' ∧ Account.account_number account' = k).
Proof.
  destruct op as [c|cid choice confirm|cid ty init pw kw uuid|n amt|n amt pw
                  |from to amt pw|]; simpl.
  - intros H. left. revert H. unfold add_customer.
    case_bool_decide; simpl; eauto using mutated.
  - intros H. left. by apply same_objects_remove_customer in H.
  - unfold create_account.
    destruct (customers self !! cid) as [c|]; [|left; eauto using mutated].
    repeat case_bool_decide; simpl; try (left; by eauto using mutated);
      rewrite lookup_insert; case_decide; intros; simplify_eq;
      eauto using mutated.
  - intros H. left. by apply same_objects_deposit in H.
  - intros H. left. by apply same_objects_withdraw in H.
  - intros H. left. unfold transfer_funds in H.
    pose proof (same_objects_transfer_funds self from to amt pw) as Hs.
    destruct (transfer_funds_exit self from to amt pw). by apply Hs.
  - intros H. left. by apply same_objects_apply_all_interest in H.
Qed.

End same_objects.

(** ** Lockout *)

Lemma attempts_locked (self : Account.t) (passwords : list string) :
  Account.is_locked self = true → attempts self passwords = self.
Proof.
  intros Hl. unfold attempts.
  induction passwords as [|p ps IH]; [done|]. cbn [foldl].
  by rewrite verify_locked.
Qed.

Lemma three_wrong_attempts (self : Account.t) (p1 p2 p3 : string) :
  (0 ≤ Account.failed_attempts self)%Z →
  Account.password_hash self ≠ Account._hash_password p1 →
  Account.password_hash self ≠ Account._hash_password p2 →
  Account.password_hash self ≠ Account._hash_password p3 →
  Account.is_locked (attempts self [p1; p2; p3]) = true.
Proof.
  intros Hfa H1 H2 H3.
  destruct (Account.is_locked self) eqn:Hl0; [by rewrite attempts_locked|].
  unfold attempts. cbn [foldl].
  rewrite (verify_wrong self p1) by done. cbn [snd].
  set (a1 := Account.set_is_locked _ _).
  destruct (Account.is_locked a1) eqn:Hl1.
  { by do 2 apply verify_keeps_lock. }
  rewrite (verify_wrong a1 p2) by done. cbn [snd].
  set (a2 := Account.set_is_locked _ _).
  destruct (Account.is_locked a2) eqn:Hl2.
  { by apply verify_keeps_lock. }
  rewrite (verify_wrong a2 p3) by done. cbn [snd]. simpl.
  apply bool_decide_eq_true. lia.
Qed.

(** C2.  The password check as a state machine.  On a locked account the
    check answers false and changes nothing.  On an unlocked account a wrong
    password adds one to the count of failed attempts and locks the account
    when the count reaches 3, a correct password sets the count to 0 and
    answers true; neither touches another field.  A locked account stays
    locked under every method call, hence fails every later check, the
    correct password included; and under every operation of the bank the
    object stored under its number, as long as it is that object and not one
    that [create_account] has just built, stays locked.  Three wrong
    passwords lock an account whose count is not negative, so that a fourth
    check fails whatever is typed. *)
Theorem password_state_machine (self : Account.t) (password : string) :
  let '(verified, self') := Account.verify_password self password in
  let correct := Account.password_hash self = Account._hash_password password in
  (Account.is_locked self = true → verified = false ∧ self' = self)
  ∧ (Account.is_locked self = false → ¬ correct →
       verified = false
       ∧ Account.failed_attempts self' = (Account.failed_attempts self + 1)%Z
       ∧ (Account.is_locked self' = true ↔ (3 ≤ Account.failed_attempts self')%Z)
       ∧ self' = Account.set_is_locked (Account.is_locked self')
                   (Account.set_failed_attempts (Account.failed_attempts self') self))
  ∧ (Account.is_locked self = false → correct →
       verified = true ∧ self' = Account.set_failed_attempts 0 self)
  ∧ (Account.is_locked self = true →
       ∀ later, mutated self later →
         Account.is_locked later = true
         ∧ ∀ typed, (Account.verify_password later typed).1 = false)
  ∧ (Account.is_locked self = true →
       ∀ bank op k after,
         Bank.accounts bank !! k = Some self →
         Bank.accounts (run bank op) !! k = Some after →
         Account.is_locked after = true ∨ new_account op = Some after)
  ∧ ((0 ≤ Account.failed_attempts self)%Z →
       ∀ p1 p2 p3 p4,
         Account.password_hash self ≠ Account._hash_password p1 →
         Account.password_hash self ≠ Account._hash_password p2 →
         Account.password_hash self ≠ Account._hash_password p3 →
         Account.is_locked (attempts self [p1; p2; p3]) = true
         ∧ (Account.verify_password (attempts self [p1; p2; p3]) p4).1 = false).
Proof.
  destruct (Account.verify_password self password) as [verified self'] eqn:Hv.
  cbv zeta. split_and!.
  - intros Hl. rewrite verify_locked in Hv by done. by simplify_eq.
  - intros Hl Hw. rewrite verify_wrong in Hv by done. simplify_eq. simpl.
    split_and!; try done. apply bool_decide_eq_true.
  - intros Hl Hc. rewrite verify_correct in Hv by done. by simplify_eq.
  - intros Hl later Hm.
    assert (Account.is_locked later = true) as Hl'.
    { by apply (mutated_fields self later). }
    split; [done|]. intros typed. by rewrite verify_locked.
  - intros Hl bank op k after Hk Hafter.
    apply run_accounts in Hafter as [(a & Ha & Hm)|[? _]]; [|by right].
    left. simplify_eq. by apply (mutated_fields self after).
  - intros Hfa p1 p2 p3 p4 H1 H2 H3.
    pose proof (three_wrong_attempts self p1 p2 p3 Hfa H1 H2 H3) as Hl.
    split; [done|]. by rewrite verify_locked.
Qed.

(** ** Accounts without a password *)

(** C9.  An account created with the empty password stores the empty
    string as its hash, and from then on no typed password passes the check,
    whatever was tried before: a digest is 64 characters long and never the
    empty string. *)
Theorem empty_password_never_verifies (account_number account_holder_id : string)
    (initial_balance : Qc) (k : Account.variant) (tried : list string)
    (password : string) :
  let account := Account.init account_number account_holder_id initial_balance "" k in
  Account.password_hash account = EmptyString
  ∧ Account.password_hash (attempts account tried) = EmptyString
  ∧ (Account.verify_password (attempts account tried) password).1 = false
  ∧ ∀ later, mutated account later →
      (Account.verify_password later password).1 = false.
Proof.
  cbv zeta. set (account := Account.init _ _ _ _ _).
  assert (Account.password_hash (attempts account tried) = EmptyString) as Ht.
  { unfold attempts. generalize account (eq_refl : Account.password_hash account = EmptyString).
    induction tried as [|p ps IH]; intros a Ha; [done|]. cbn [foldl].
    apply IH. by apply verify_empty_hash. }
  split_and!; [done|done|by apply verify_empty_hash|].
  intros later Hm. apply verify_empty_hash.
  by rewrite (proj1 (proj2 (proj2 (mutated_fields _ _ Hm)))).
Qed.

(** ** The transfer never rolls back *)

(** C10.  [transfer_funds] never leaves through its compensating branch.
    It returns on a non-positive amount before it checks the password and
    without touching the bank; [deposit] grants every positive amount on an
    account of either class; so after a granted withdrawal from the source,
    which needs a positive amount, the deposit to the destination is
    granted. *)
Theorem transfer_never_rolls_back (self : Bank.t) (from_acc_num to_acc_num : string)
    (amount : Qc) (password : string) :
  (Bank.transfer_funds_exit self from_acc_num to_acc_num amount password).1
    ≠ Bank.ExitRolledBack
  ∧ (amount ≤ 0 →
       (Bank.transfer_funds_exit self from_acc_num to_acc_num amount password).2 = self
       ∧ (Bank.transfer_funds_exit self from_acc_num to_acc_num amount password).1
         ∈ [Bank.ExitUnknownAccount; Bank.ExitBadAmount])
  ∧ (∀ account, 0 < amount → (SavingsAccount.deposit account amount).1 = true)
  ∧ (∀ account, 0 < amount → (CheckingAccount.deposit account amount).1 = true)
  ∧ (∀ source destination,
       (AnyAccount.withdraw source amount).1 = true →
       (AnyAccount.deposit destination amount).1 = true).
Proof.
  assert (∀ source destination,
            (AnyAccount.withdraw source amount).1 = true →
            (AnyAccount.deposit destination amount).1 = true) as Hwd.
  { intros a b. destruct (AnyAccount.withdraw a amount) as [w a'] eqn:Hw.
    simpl. intros ->. apply withdraw_true_inv in Hw as (Hpos & _).
    by rewrite deposit_true. }
  split_and!; [| |..|done].
  - unfold Bank.transfer_funds_exit.
    destruct (Bank.accounts self !! from_acc_num) as [a|]; [|done].
    destruct (Bank.accounts self !! to_acc_num) as [b|]; [|done].
    case_bool_decide; [done|].
    destruct (Account.is_locked a); [done|].
    destruct (Account.verify_password a password) as [[] a1]; cbn [negb]; [|done].
    destruct (AnyAccount.withdraw a1 amount) as [[] a2] eqn:Hw; cbn [negb]; [|done].
    destruct (Bank.accounts _ !! to_acc_num) as [b1|]; [|done].
    specialize (Hwd a1 b1). rewrite Hw in Hwd.
    destruct (AnyAccount.deposit b1 amount) as [[] b2]; [done|].
    by specialize (Hwd eq_refl).
  - intros Hle. unfold Bank.transfer_funds_exit.
    destruct (Bank.accounts self !! from_acc_num) as [a|];
      [|split; [done|set_solver]].
    destruct (Bank.accounts self !! to_acc_num) as [b|];
      [|split; [done|set_solver]].
    rewrite bool_decide_eq_true_2 by done. split; [done|set_solver].
  - intros a Hpos. unfold SavingsAccount.deposit. by rewrite bool_decide_eq_true_2.
  - intros a Hpos. unfold CheckingAccount.deposit. by rewrite bool_decide_eq_true_2.
Qed.

(** ** Transfers conserve money *)

Section total_balance.
Import Bank.

Lemma sum_balances_insert (accounts : gmap string Account.t) k account account' :
  accounts !! k = Some account →
  map_fold (λ _ account total, Account.balance account + total) 0
           (<[k := account']> accounts)
  = map_fold (λ _ account total, Account.balance account + total) 0 accounts
    - Account.balance account + Account.balance account'.
Proof.
  intros Hk.
  rewrite <-(insert_delete_eq accounts k account').
  rewrite <-(insert_delete_id accounts k account) at 2 by done.
  rewrite !map_fold_insert_L;
    [ring|intros; ring|apply lookup_delete_eq|intros; ring|apply lookup_delete_eq].
Qed.



End total_balance.



(** A transfer from an account to itself: source and destination are one
    object, the withdrawal and the deposit both act on it and the balance
    ends where it started. *)
Example transfer_to_self :
  let result :=
    Bank.transfer_funds demo_bank "1b4e28ba" "1b4e28ba" (Qc_of_Z 30) "secret" in
  result.1 = true
  ∧ Bank.accounts result.2 !! "1b4e28ba"%string
    = Bank.accounts demo_bank !! "1b4e28ba"%string.
Proof.
  cbv zeta. split; [by vm_compute|].
  vm_compute. do 2 f_equal. by apply Qc_is_canon.
Qed.

(** ** Balances stay above the floor *)

Section floor.
Import Account.






End floor.



(** ** Account identifiers *)


(** ** What [Bank.withdraw] saves *)

(** C6, as the code has it.  After the password check of [Bank.withdraw]
    the files are written when the check fails and when the withdrawal is
    granted.  When the check passes and the withdrawal is refused, the
    account keeps its new count of failed attempts in memory and the files
    keep what they held.  The example: a wrong password, saved with count 1,
    then the correct password with an amount over the balance leaves count 0
    in memory and count 1 in the files. *)
Theorem withdraw_persistence :
  (∀ self account_number amount password account,
     Bank.accounts self !! account_number = Some account →
     Account.is_locked account = false →
     let '(verified, account1) := Account.verify_password account password in
     let '(success, self') := Bank.withdraw self account_number amount password in
     (verified = false → success = false ∧ Bank.disk self' = Bank.snapshot self')
     ∧ (verified = true →
          success = (AnyAccount.withdraw account1 amount).1
          ∧ (success = true → Bank.disk self' = Bank.snapshot self')
          ∧ (success = false →
               Bank.disk self' = Bank.disk self
               ∧ Bank.accounts self' = <[account_number := account1]> (Bank.accounts self))))
  ∧ (let bank1 := (Bank.withdraw demo_bank "1b4e28ba" (Qc_of_Z 10) "oops").2 in
     let result := Bank.withdraw bank1 "1b4e28ba" (Qc_of_Z 500) "secret" in
     let bank2 := result.2 in
     result.1 = false
     ∧ saved_failed_attempts bank1 "1b4e28ba" = Some 1%Z
     ∧ Account.failed_attempts <$> Bank.accounts bank2 !! "1b4e28ba"%string = Some 0%Z
     ∧ saved_failed_attempts bank2 "1b4e28ba" = Some 1%Z
     ∧ Bank.disk bank2 ≠ Bank.snapshot bank2).
Proof.
  split.
  - intros self n amount password a Hn Hl.
    destruct (Account.verify_password a password) as [verified a1] eqn:Hv.
    unfold Bank.withdraw. rewrite Hn, Hl, Hv.
    destruct verified; cbn [negb].
    + destruct (AnyAccount.withdraw a1 amount) as [[] a2] eqn:Hw; cbn [fst].
      { split; [done|]. intros _. by split_and!. }
      apply withdraw_false_inv in Hw as ->.
      split; [done|]. intros _. split_and!; [done|done|]. intros _.
      split; [done|]. unfold Bank.store; simpl. by rewrite insert_insert_eq.
    + by split.
  - cbv zeta. split_and!; [by vm_compute..|].
    intros H.
    apply (f_equal (λ d, '(_, accounts) ← Bank._load_data d;
                         Account.failed_attempts <$> accounts !! "1b4e28ba"%string)) in H.
    by vm_compute in H.
Qed.

(** ** Removing a customer *)

Lemma accounts_with_balance_spec (self : Bank.t) (customer : Customer.t) :
  match Bank.accounts_with_balance self (Customer.account_numbers customer) with
  | [] => ¬ holds_money self customer
  | _ :: _ => holds_money self customer
  end.
Proof.
  unfold holds_money, Bank.accounts_with_balance.
  generalize (Customer.account_numbers customer) as l.
  induction l as [|n l IH]; simpl.
  { intros (n & a & Hn & _). by apply not_elem_of_nil in Hn. }
  assert (∀ P : string → Account.t → Prop,
            (∃ n' a', n' ∈ l ∧ P n' a') → ∃ n' a', n' ∈ n :: l ∧ P n' a') as Hweak.
  { intros P (n' & a' & ? & ?). exists n', a'. set_solver. }
  destruct (Bank.accounts self !! n) as [a|] eqn:Hn; simpl.
  - case_bool_decide as Hb; simpl.
    { exists n, a. set_solver. }
    unfold omap in IH; destruct (list_omap _ _ _ l); cbn beta iota in *.
    + intros (n' & a' & [->|Hin]%elem_of_cons & Hl & Hne); [naive_solver|].
      apply IH. by exists n', a'.
    + by apply Hweak.
  - unfold omap in IH; destruct (list_omap _ _ _ l); cbn beta iota in *.
    + intros (n' & a' & [->|Hin]%elem_of_cons & Hl & Hne); [naive_solver|].
      apply IH. by exists n', a'.
    + by apply Hweak.
Qed.

(** C7.  [remove_customer] fails on an unknown customer.  For a customer
    with accounts it fails, and leaves the bank (both dictionaries and the
    files) exactly as it was, when the choice is to cancel, when the choice
    is invalid, and when an owned account holds money and the confirmation
    is not the literal CONFIRM.  In every other case it succeeds: each owned
    account is deleted and no other, the customer is deleted, and the files
    are written from the two dictionaries so obtained. *)
Theorem remove_customer_rule (self : Bank.t) (customer_id choice confirm : string) :
  let '(removed, self') := Bank.remove_customer self customer_id choice confirm in
  match Bank.customers self !! customer_id with
  | None => removed = false ∧ self' = self
  | Some customer =>
      (cancelled self customer choice confirm → removed = false ∧ self' = self)
      ∧ (¬ cancelled self customer choice confirm →
           removed = true
           ∧ Bank.accounts self'
             = Bank.remove_accounts (Customer.account_numbers customer) (Bank.accounts self)
           ∧ (∀ k, Bank.accounts self' !! k
                   = if bool_decide (k ∈ Customer.account_numbers customer)
                     then None else Bank.accounts self !! k)
           ∧ Bank.customers self' = delete customer_id (Bank.customers self)
           ∧ Bank.disk self' = Bank.snapshot self')
  end.
Proof.
  unfold Bank.remove_customer.
  destruct (Bank.customers self !! customer_id) as [customer|]; [|done].
  pose proof (accounts_with_balance_spec self customer) as Hawb.
  unfold cancelled.
  destruct (Customer.account_numbers customer) as [|n l] eqn:Hl.
  { split; [naive_solver|]. intros _. by split_and!. }
  assert (∀ self2 : Bank.t,
            Bank.accounts self2 = Bank.remove_accounts (n :: l) (Bank.accounts self) →
            ∀ k, Bank.accounts self2 !! k
                 = if bool_decide (k ∈ n :: l) then None else Bank.accounts self !! k)
    as Hlook.
  { intros self2 -> k. apply remove_accounts_lookup. }
  case_bool_decide as H1; [naive_solver|].
  case_bool_decide as H2; [|naive_solver].
  destruct (Bank.accounts_with_balance self (n :: l)) as [|p ps].
  - split; [naive_solver|]. intros _. split_and!; try done. by apply Hlook.
  - case_bool_decide as H3.
    + split; [done|]. intros []. naive_solver.
    + split; [naive_solver|]. intros _. split_and!; try done. by apply Hlook.
Qed.

(** ** Saving and loading *)

Section round_trip.

Lemma as_strs_fmap (l : list string) : as_strs (JList (JStr <$> l)) = Some l.
Proof.
  simpl. induction l as [|x l IH]; [done|].
  rewrite fmap_cons. cbn. by rewrite IH.
Qed.

Lemma foldl_add_account_number (customer : Customer.t) (l : list string) :
  NoDup (Customer.account_numbers customer ++ l) →
  foldl Customer.add_account_number customer l
  = Customer.mk (Customer.customer_id customer) (Customer.name customer)
      (Customer.address customer) (Customer.account_numbers customer ++ l).
Proof.
  induction l as [|x l IH] in customer |- *; intros Hnd; cbn [foldl].
  { rewrite app_nil_r. by destruct customer. }
  assert (x ∉ Customer.account_numbers customer) as Hx.
  { apply NoDup_app in Hnd as (_ & Hd & _). intros Hin. apply (Hd x Hin). set_solver. }
  unfold Customer.add_account_number at 2.
  rewrite bool_decide_eq_false_2 by done.
  rewrite IH; simpl; rewrite <-app_assoc; done.
Qed.

Lemma customer_fields (customer : Customer.t) :
  let d := Customer.to_dict customer in
  d !! "customer_id"%string = Some (JStr (Customer.customer_id customer))
  ∧ d !! "name"%string = Some (JStr (Customer.name customer))
  ∧ d !! "address"%string = Some (JStr (Customer.address customer))
  ∧ d !! "account_numbers"%string
    = Some (JList (JStr <$> Customer.account_numbers customer)).
Proof. by split_and!. Qed.

Lemma account_fields (account : Account.t) :
  let d := AnyAccount.to_dict account in
  d !! "account_number"%string = Some (JStr (Account.account_number account))
  ∧ d !! "account_holder_id"%string = Some (JStr (Account.account_holder_id account))
  ∧ d !! "balance"%string = Some (JFloat (Account.balance account))
  ∧ d !! "password_hash"%string = Some (JStr (Account.password_hash account))
  ∧ d !! "failed_attempts"%string = Some (JInt (Account.failed_attempts account))
  ∧ d !! "is_locked"%string = Some (JBool (Account.is_locked account))
  ∧ match Account.kind account with
    | Account.Savings interest_rate =>
        d !! "type"%string = Some (JStr "savings")
        ∧ d !! "interest_rate"%string = Some (JFloat interest_rate)
    | Account.Checking overdraft_limit =>
        d !! "type"%string = Some (JStr "checking")
        ∧ d !! "overdraft_limit"%string = Some (JFloat overdraft_limit)
    end.
Proof. unfold AnyAccount.to_dict. destruct (Account.kind account); by split_and!. Qed.

Lemma load_customer_to_dict (customer : Customer.t) :
  NoDup (Customer.account_numbers customer) →
  Bank.load_customer (Customer.to_dict customer) = Some customer.
Proof.
  intros Hnd. unfold Bank.load_customer.
  pose proof (customer_fields customer) as (-> & -> & -> & ->).
  cbn [mbind option_bind as_str]. rewrite as_strs_fmap. cbn [mbind option_bind].
  rewrite foldl_add_account_number by done. by destruct customer.
Qed.

Lemma load_account_to_dict (account : Account.t) :
  Bank.load_account (AnyAccount.to_dict account) = Some (Some account).
Proof.
  unfold Bank.load_account, Bank.restore_security.
  pose proof (account_fields account) as (-> & -> & -> & -> & -> & -> & Hk).
  destruct account as [n h b p f l k]. simpl in Hk.
  destruct k as [r|o]; destruct Hk as [-> ->]; reflexivity.
Qed.

Lemma load_customers_to_dict (l : list Customer.t) customers :
  Forall (λ c, NoDup (Customer.account_numbers c)) l →
  Bank.load_customers (Customer.to_dict <$> l) customers
  = Some (foldl (λ m c, <[Customer.customer_id c := c]> m) customers l).
Proof.
  induction 1 as [|c l Hc _ IH] in customers |- *; [done|].
  rewrite fmap_cons. cbn [Bank.load_customers foldl].
  rewrite load_customer_to_dict by done. cbn [mbind option_bind]. apply IH.
Qed.

Lemma load_accounts_to_dict (l : list Account.t) accounts :
  Bank.load_accounts (AnyAccount.to_dict <$> l) accounts
  = Some (foldl (λ m a, <[Account.account_number a := a]> m) accounts l).
Proof.
  induction l as [|a l IH] in accounts |- *; [done|].
  rewrite fmap_cons. cbn [Bank.load_accounts foldl].
  rewrite load_account_to_dict. cbn [mbind option_bind]. apply IH.
Qed.

(** Inserting the values of a dictionary under their own identifiers
    rebuilds the dictionary, when every value is stored under its
    identifier. *)
Lemma foldl_insert_other {V} (key : V → string) (l : list V) (m : gmap string V) k :
  k ∉ key <$> l →
  foldl (λ m v, <[key v := v]> m) m l !! k = m !! k.
Proof.
  induction l as [|v l IH] in m |- *; [done|]. rewrite fmap_cons, not_elem_of_cons.
  intros [Hne Hk]. cbn [foldl]. rewrite IH by done. by rewrite lookup_insert_ne.
Qed.

Lemma foldl_insert_elem {V} (key : V → string) (l : list V) (m : gmap string V) v :
  NoDup (key <$> l) → v ∈ l →
  foldl (λ m v, <[key v := v]> m) m l !! key v = Some v.
Proof.
  induction l as [|w l IH] in m |- *; [by intros _ ?%not_elem_of_nil|].
  rewrite fmap_cons, NoDup_cons. intros [Hw Hnd] Hin. cbn [foldl].
  apply elem_of_cons in Hin as [->|Hin]; [|by apply IH].
  rewrite foldl_insert_other by done. apply lookup_insert_eq.
Qed.

Lemma foldl_insert_values {V} (key : V → string) (m : gmap string V) :
  map_Forall (λ k v, key v = k) m →
  foldl (λ m v, <[key v := v]> m) ∅ (map_to_list m).*2 = m.
Proof.
  intros Hkey.
  assert (key <$> (map_to_list m).*2 = (map_to_list m).*1) as Hkeys.
  { rewrite <-list_fmap_compose. apply list_fmap_ext.
    intros i [k v] Hi. simpl. apply (Hkey k v).
    apply elem_of_map_to_list. by eapply list_elem_of_lookup_2. }
  apply map_eq. intros k. destruct (m !! k) as [v|] eqn:Hk.
  - rewrite <-(Hkey k v Hk). apply foldl_insert_elem.
    + rewrite Hkeys. apply NoDup_fst_map_to_list.
    + apply list_elem_of_fmap. exists (k, v). split; [done|].
      by apply elem_of_map_to_list.
  - rewrite foldl_insert_other; [apply lookup_empty|].
    rewrite Hkeys. intros ((k' & v) & -> & Hin)%list_elem_of_fmap.
    apply elem_of_map_to_list in Hin. simpl in Hk. congruence.
Qed.

Lemma load_saved (self : Bank.t) :
  well_keyed self →
  Bank._load_data (Bank.disk (Bank._save_data self))
  = Some (Bank.customers self, Bank.accounts self).
Proof.
  intros [Hc Ha]. unfold Bank._load_data, Bank._save_data, Bank.snapshot. simpl.
  rewrite !map_to_list_fmap, <-!list_fmap_compose.
  assert (∀ {V} (f : V → jrecord) (m : gmap string V),
            snd ∘ prod_map id f <$> map_to_list m = f <$> (map_to_list m).*2) as Hsnd.
  { intros V f m. rewrite <-list_fmap_compose. by apply list_fmap_ext; intros i []. }
  rewrite !Hsnd.
  rewrite load_customers_to_dict, load_accounts_to_dict.
  - cbn [mbind option_bind].
    rewrite (foldl_insert_values Customer.customer_id),
            (foldl_insert_values Account.account_number); [done|done|].
    intros k c Hk. by apply (Hc k c Hk).
  - apply Forall_forall. intros c ((k & c') & -> & Hin)%list_elem_of_fmap.
    apply elem_of_map_to_list in Hin. by apply (Hc k c' Hin).
Qed.

End round_trip.

(** ** Every object is stored under its own identifier *)

Section well_keyed.
Import Bank.

Lemma add_account_number_wf k customer account_number :
  customer_wf k customer →
  customer_wf k (Customer.add_account_number customer account_number).
Proof.
  intros [Hid Hnd]. unfold Customer.add_account_number.
  case_bool_decide as Hin; [done|]. split; [done|]. simpl.
  apply NoDup_app. split_and!; [done| |apply NoDup_singleton].
  intros x Hx ->%list_elem_of_singleton. done.
Qed.

Lemma customers_deposit self account_number amount :
  customers (deposit self account_number amount).2 = customers self.
Proof.
  unfold deposit. destruct (accounts self !! _); [|done].
  by destruct (AnyAccount.deposit _ _) as [[] ?].
Qed.

Lemma customers_withdraw self account_number amount password :
  customers (withdraw self account_number amount password).2 = customers self.
Proof.
  unfold withdraw. destruct (accounts self !! _) as [a|]; [|done].
  destruct (Account.is_locked a); [done|].
  destruct (Account.verify_password _ _) as [[] ?]; cbn [negb]; [|done].
  by destruct (AnyAccount.withdraw _ _) as [[] ?].
Qed.

Lemma customers_transfer_funds self from_acc_num to_acc_num amount password :
  customers (transfer_funds self from_acc_num to_acc_num amount password).2
  = customers self.
Proof.
  unfold transfer_funds, transfer_funds_exit.
  destruct (accounts self !! from_acc_num) as [a|]; [|done].
  destruct (accounts self !! to_acc_num) as [b|]; [|done].
  case_bool_decide; [done|].
  destruct (Account.is_locked a); [done|].
  destruct (Account.verify_password _ _) as [[] ?]; cbn [negb]; [|done].
  destruct (AnyAccount.withdraw _ _) as [[] ?]; cbn [negb]; [|done].
  destruct (accounts _ !! to_acc_num); [|done].
  destruct (AnyAccount.deposit _ _) as [[] ?]; [done|].
  destruct (accounts _ !! from_acc_num); [|done].
  by destruct (AnyAccount.deposit _ _) as [? ?].
Qed.

Lemma remove_customer_cases self customer_id choice confirm :
  remove_customer self customer_id choice confirm = (false, self)
  ∨ ∃ customer,
      customers self !! customer_id = Some customer
      ∧ remove_customer self customer_id choice confirm
        = (true,
           _save_data
             (set_customers (delete customer_id (customers self))
                (set_accounts
                   (remove_accounts (Customer.account_numbers customer)
                      (accounts self)) self))).
Proof.
  unfold remove_customer.
  destruct (customers self !! customer_id) as [c|]; [|by left].
  destruct (Customer.account_numbers c) as [|n l] eqn:Hl.
  { right. exists c. split; [done|]. rewrite Hl. by destruct self. }
  case_bool_decide; [by left|].
  case_bool_decide; [|by left].
  destruct (accounts_with_balance self (n :: l)).
  { right. exists c. by rewrite Hl. }
  case_bool_decide; [by left|]. right. exists c. by rewrite Hl.
Qed.

Lemma run_customers self op k customer' :
  customers (run self op) !! k = Some customer' →
  customers self !! k = Some customer'
  ∨ (op = AddCustomer customer' ∧ Customer.customer_id customer' = k)
  ∨ (∃ customer account_number,
       customers self !! k = Some customer
       ∧ customer' = Customer.add_account_number customer account_number).
Proof.
  destruct op as [c|cid choice confirm|cid ty init pw kw uuid|n amt|n amt pw
                  |from to amt pw|]; simpl.
  - unfold add_customer. case_bool_decide; simpl; [by left|].
    rewrite lookup_insert. case_decide; intros; simplify_eq; eauto.
  - destruct (remove_customer_cases self cid choice confirm) as [->|(c & _ & ->)];
      [by left|].
    simpl. rewrite lookup_delete. case_decide; naive_solver.
  - unfold create_account.
    destruct (customers self !! cid) as [c|] eqn:Hc; [|by left].
    repeat case_bool_decide; simpl; try (by left);
      rewrite lookup_insert; case_decide; intros; simplify_eq; eauto 10.
  - rewrite customers_deposit. by left.
  - rewrite customers_withdraw. by left.
  - rewrite customers_transfer_funds. by left.
  - by left.
Qed.

Lemma run_well_keyed self op :
  customer_object op → well_keyed self → well_keyed (run self op).
Proof.
  intros Hop [Hc Ha]. split.
  - intros k c' [Hk|[[-> <-]|(c & n & Hk & ->)]]%run_customers.
    + by apply (Hc k).
    + by split.
    + apply add_account_number_wf. by apply (Hc k).
  - intros k a' [(a & Hk & Hm)|[_ Hnew]]%run_accounts; [|done].
    unfold account_wf. rewrite (proj1 (mutated_fields _ _ Hm)). by apply (Ha k).
Qed.

Lemma foldl_add_account_number_wf k customer account_numbers :
  customer_wf k customer →
  customer_wf k (foldl Customer.add_account_number customer account_numbers).
Proof.
  induction account_numbers as [|n l IH] in customer |- *; [done|].
  intros Hwf. cbn [foldl]. by apply IH, add_account_number_wf.
Qed.

Lemma load_customers_well_keyed data customers customers' :
  map_Forall customer_wf customers →
  load_customers data customers = Some customers' →
  map_Forall customer_wf customers'.
Proof.
  induction data as [|customer_data data IH] in customers |- *;
    cbn [load_customers]; [by intros ? [= <-]|].
  intros Hwf. destruct (load_customer customer_data) as [c|] eqn:Hc; [|done].
  cbn [mbind option_bind]. apply IH. apply map_Forall_insert_2; [|done].
  unfold load_customer in Hc.
  destruct (customer_data !! "customer_id"%string ≫= as_str) as [cid|]; [|done].
  destruct (customer_data !! "name"%string ≫= as_str) as [nm|]; [|done].
  destruct (customer_data !! "address"%string ≫= as_str) as [ad|]; [|done].
  destruct (customer_data !! "account_numbers"%string ≫= as_strs) as [l|]; [|done].
  cbn [mbind option_bind] in Hc. injection Hc as <-.
  set (c0 := Customer.init cid nm ad).
  assert (customer_wf (Customer.customer_id c0) c0) as H0.
  { split; [done|]. apply NoDup_nil_2. }
  pose proof (foldl_add_account_number_wf _ c0 l H0) as [Hid Hnd].
  split; [done|]. done.
Qed.

Lemma restore_security_number acc_data account account' :
  restore_security acc_data account = Some account' →
  Account.account_number account' = Account.account_number account.
Proof.
  unfold restore_security. intros H.
  destruct (match acc_data !! "password_hash"%string with
            | Some j => as_str j | None => Some EmptyString end); [|done].
  destruct (match acc_data !! "failed_attempts"%string with
            | Some j => as_int j | None => Some 0%Z end); [|done].
  destruct (match acc_data !! "is_locked"%string with
            | Some j => as_bool j | None => Some false end); [|done].
  cbn [mbind option_bind] in H. by injection H as <-.
Qed.

Lemma load_accounts_well_keyed data accounts accounts' :
  map_Forall account_wf accounts →
  load_accounts data accounts = Some accounts' →
  map_Forall account_wf accounts'.
Proof.
  induction data as [|acc_data data IH] in accounts |- *;
    cbn [load_accounts]; [by intros ? [= <-]|].
  intros Hwf. destruct (load_account acc_data) as [[a|]|]; cbn [mbind option_bind];
    [|by apply IH|done].
  apply IH. by apply map_Forall_insert_2.
Qed.

Lemma init_well_keyed d self : Bank.init d = Some self → well_keyed self.
Proof.
  unfold Bank.init, _load_data. intros H.
  destruct (match customer_file d with
            | Some customers_data => load_customers customers_data.*2 ∅
            | None => Some ∅ end) as [cs|] eqn:Hcs; [|done].
  destruct (match account_file d with
            | Some accounts_data => load_accounts accounts_data.*2 ∅
            | None => Some ∅ end) as [accs|] eqn:Has; [|done].
  cbn [mbind option_bind] in H. injection H as <-. split; simpl.
  - destruct (customer_file d).
    + eapply load_customers_well_keyed; [|done]. apply map_Forall_empty.
    + injection Hcs as <-. apply map_Forall_empty.
  - destruct (account_file d).
    + eapply load_accounts_well_keyed; [|done]. apply map_Forall_empty.
    + injection Has as <-. apply map_Forall_empty.
Qed.

Lemma reachable_well_keyed self : reachable self → well_keyed self.
Proof.
  intros (d & start & Hstart%init_well_keyed & Hr).
  induction Hr as [|self op _ IH Hop]; [done|by apply run_well_keyed].
Qed.

End well_keyed.

(** C8.  In every state of a run of the program (a bank started on any
    files it can load, then any operations), saving the bank and loading
    the files back gives the two dictionaries as they are in memory: the
    same customers, each with its account numbers in the same order, and the
    same accounts, equal in every field (number, owner, balance, password
    hash, failed attempts, lock, class, and interest rate or overdraft
    limit).  A bank started on the saved files is the bank that saved
    them. *)
Theorem save_then_load (self : Bank.t) :
  reachable self →
  Bank._load_data (Bank.disk (Bank._save_data self))
  = Some (Bank.customers self, Bank.accounts self)
  ∧ Bank.init (Bank.disk (Bank._save_data self)) = Some (Bank._save_data self).
Proof.
  intros Hr%reachable_well_keyed.
  pose proof (load_saved self Hr) as Hl. split; [done|].
  unfold Bank.init. by rewrite Hl.
Qed.

Lemma demo_bank_reachable : reachable demo_bank.
Proof.
  exists (Bank.mk_files None None), new_bank. split; [done|].
  unfold demo_bank, demo_operations. cbn [foldl].
  repeat (apply reachable_run; [|try done]); [apply reachable_start|].
  simpl. apply NoDup_nil_2.
Qed.

(** The example bank, saved and loaded back. *)
Lemma save_then_load_witness :
  Bank._load_data (Bank.disk (Bank._save_data demo_bank))
  = Some (Bank.customers demo_bank, Bank.accounts demo_bank)
  ∧ Bank.init (Bank.disk (Bank._save_data demo_bank)) = Some (Bank._save_data demo_bank).
Proof. apply (save_then_load demo_bank). apply demo_bank_reachable. Defined.

(** * Runs of the program *)

(** The digest function against the test vectors of FIPS 180-4. *)
Example sha256_empty :
  SHA256.hexdigest ""
  = "e3b0c44298fc1c149afbf4c8996fb92427ae41e4649b934ca495991b7852b855"%string.
Proof. by vm_compute. Qed.

Example sha256_abc :
  SHA256.hexdigest "abc"
  = "ba7816bf8f01cfea414140de5dae2223b00361a396177a9cb410ff61f20015ad"%string.
Proof. by vm_compute. Qed.

Example sha256_two_blocks :
  SHA256.hexdigest "abcdbcdecdefdefgefghfghighijhijkijkljklmklmnlmnomnopnopq"
  = "248d6a61d20638b8e5c026930c3e6039a33ce45964ff2167f6ecedd419db06c1"%string.
Proof. by vm_compute. Qed.

(** An account protected by ["secret"]: the password opens it; after three
    wrong passwords it is locked with a count of 3 and the password no
    longer opens it. *)
Example lockout_run :
  let account := SavingsAccount.init "a" "c" (Qc_of_Z 100) "secret" one_percent in
  let locked := attempts account ["a"; "b"; "c"]%string in
  (Account.verify_password account "secret").1 = true
  ∧ Account.failed_attempts (attempts account ["a"; "b"]%string) = 2%Z
  ∧ Account.is_locked (attempts account ["a"; "b"]%string) = false
  ∧ Account.failed_attempts (attempts account ["a"; "b"; "secret"]%string) = 0%Z
  ∧ Account.failed_attempts locked = 3%Z
  ∧ Account.is_locked locked = true
  ∧ Account.verify_password locked "secret" = (false, locked).
Proof. by vm_compute. Qed.

(** Scenario A: interest at 0.01 on a balance of 100 gives 101. *)
Example interest_scenario_A :
  Account.balance
    (AnyAccount.apply_interest_if_savings
       (SavingsAccount.init "a" "c" (Qc_of_Z 100) "secret" one_percent))
  = Qc_of_Z 101.
Proof. by apply Qc_is_canon. Qed.

(** Scenario C: after one wrong password, the right one withdraws 30 from
    100: the balance is 70 and the count of failed attempts is back to 0,
    in memory and in the files. *)
Example withdraw_scenario_C :
  let bank1 := (Bank.withdraw demo_bank "1b4e28ba" (Qc_of_Z 30) "oops").2 in
  let result := Bank.withdraw bank1 "1b4e28ba" (Qc_of_Z 30) "secret" in
  Account.failed_attempts <$> Bank.accounts bank1 !! "1b4e28ba"%string = Some 1%Z
  ∧ result.1 = true
  ∧ Account.balance <$> Bank.accounts result.2 !! "1b4e28ba"%string = Some (Qc_of_Z 70)
  ∧ Account.failed_attempts <$> Bank.accounts result.2 !! "1b4e28ba"%string = Some 0%Z
  ∧ saved_failed_attempts result.2 "1b4e28ba" = Some 0%Z.
Proof.
  cbv zeta. split_and!; [by vm_compute|by vm_compute| |by vm_compute|by vm_compute].
  vm_compute. f_equal. by apply Qc_is_canon.
Qed.

(** Scenario D: a customer whose one account holds 5; the choice to
    proceed followed by a wrong confirmation cancels the removal and leaves
    the bank as it was, the literal CONFIRM removes account and customer. *)
Example remove_scenario_D :
  let bank :=
    foldl run new_bank
      [AddCustomer alice; CreateAccount "c1" "savings" (Qc_of_Z 5) "secret" ∅ uuid_a] in
  Bank.remove_customer bank "c1" "2" "confirm" = (false, bank)
  ∧ (Bank.remove_customer bank "c1" "2" "CONFIRM").1 = true
  ∧ Bank.accounts (Bank.remove_customer bank "c1" "2" "CONFIRM").2 = ∅
  ∧ Bank.customers (Bank.remove_customer bank "c1" "2" "CONFIRM").2 = ∅.
Proof. cbv zeta. split_and!; by vm_compute. Qed.

(** * More of the program *)

(** ** The list of account numbers of a customer *)

Section customer_list.
Import Customer.

Lemma list_remove_notin (x : string) (l : list string) :
  x ∉ l → list_remove x l = l.
Proof.
  induction l as [|y l IH]; [done|]. rewrite not_elem_of_cons. intros [Hne Hl].
  simpl. rewrite bool_decide_eq_false_2 by done. by rewrite IH.
Qed.

Lemma list_remove_app_new (x : string) (l : list string) :
  x ∉ l → list_remove x (l ++ [x]) = l.
Proof.
  induction l as [|y l IH]; simpl.
  { by rewrite bool_decide_eq_true_2. }
  rewrite not_elem_of_cons. intros [Hne Hl].
  rewrite bool_decide_eq_false_2 by done. by rewrite IH.
Qed.

Lemma list_remove_length (x : string) (l : list string) :
  x ∈ l → S (length (list_remove x l)) = length l.
Proof.
  induction l as [|y l IH]; [by intros ?%not_elem_of_nil|].
  simpl. case_bool_decide as Hy; [done|].
  intros [?|Hin]%elem_of_cons; [done|]. simpl. by rewrite IH.
Qed.

Lemma list_remove_elem_of (x : string) (l : list string) (m : string) :
  NoDup l → m ∈ list_remove x l ↔ m ∈ l ∧ m ≠ x.
Proof.
  induction l as [|y l IH]; simpl.
  { intros _. split; [by intros ?%not_elem_of_nil|by intros [?%not_elem_of_nil _]]. }
  rewrite NoDup_cons. intros [Hy Hnd]. case_bool_decide as Hyx.
  - subst y. rewrite elem_of_cons. split; [|naive_solver].
    intros Hm. split; [by right|]. by intros ->.
  - rewrite !elem_of_cons, IH by done. naive_solver.
Qed.

Lemma add_account_number_elem (self : Customer.t) (account_number n : string) :
  n ∈ account_numbers (add_account_number self account_number)
  ↔ n ∈ account_numbers self ∨ n = account_number.
Proof.
  unfold add_account_number. case_bool_decide as Hin; simpl.
  - split; [by left|]. by intros [?| ->].
  - by rewrite elem_of_app, list_elem_of_singleton.
Qed.

End customer_list.

(** X1.  [add_account_number] appends a number the customer does not hold
    and does nothing for one it holds: afterwards the number is in the list,
    the numbers held before keep their places, nothing else was added, a
    list without repetition stays so, a second call changes nothing, and
    identifier, name and address are untouched. *)
Theorem add_account_number_rule (self : Customer.t) (account_number : string) :
  let self' := Customer.add_account_number self account_number in
  account_number ∈ Customer.account_numbers self'
  ∧ Customer.account_numbers self `prefix_of` Customer.account_numbers self'
  ∧ (∀ n, n ∈ Customer.account_numbers self' ↔
          n ∈ Customer.account_numbers self ∨ n = account_number)
  ∧ (account_number ∈ Customer.account_numbers self → self' = self)
  ∧ (NoDup (Customer.account_numbers self) → NoDup (Customer.account_numbers self'))
  ∧ Customer.add_account_number self' account_number = self'
  ∧ Customer.customer_id self' = Customer.customer_id self
  ∧ Customer.name self' = Customer.name self
  ∧ Customer.address self' = Customer.address self.
Proof.
  cbv zeta. unfold Customer.add_account_number.
  case_bool_decide as Hin.
  - rewrite bool_decide_eq_true_2 by done. split_and!; try done.
    intros n. split; [by left|]. by intros [?| ->].
  - simpl. rewrite bool_decide_eq_true_2 by set_solver.
    split_and!; try done.
    + set_solver.
    + by apply prefix_app_r.
    + intros n. rewrite elem_of_app, list_elem_of_singleton. done.
    + intros Hnd. apply NoDup_app. split_and!; [done| |apply NoDup_singleton].
      intros x Hx ->%list_elem_of_singleton. done.
Qed.

(** X2.  [remove_account_number] leaves a customer that does not hold the
    number as it is, and otherwise takes one entry out of the list; on a
    list without repetition the number is gone and every other number is
    kept; removing a number just added to a customer that did not hold it
    gives back the customer.  Identifier, name and address are untouched. *)
Theorem remove_account_number_rule (self : Customer.t) (account_number : string) :
  let self' := Customer.remove_account_number self account_number in
  (account_number ∉ Customer.account_numbers self → self' = self)
  ∧ (account_number ∈ Customer.account_numbers self →
       S (length (Customer.account_numbers self'))
       = length (Customer.account_numbers self))
  ∧ (NoDup (Customer.account_numbers self) →
       ∀ n, n ∈ Customer.account_numbers self' ↔
            n ∈ Customer.account_numbers self ∧ n ≠ account_number)
  ∧ (account_number ∉ Customer.account_numbers self →
       Customer.remove_account_number
         (Customer.add_account_number self account_number) account_number = self)
  ∧ Customer.customer_id self' = Customer.customer_id self
  ∧ Customer.name self' = Customer.name self
  ∧ Customer.address self' = Customer.address self.
Proof.
  cbv zeta. unfold Customer.remove_account_number.
  split_and!.
  - intros Hn. by rewrite bool_decide_eq_false_2.
  - intros Hn. rewrite bool_decide_eq_true_2 by done. simpl.
    by apply list_remove_length.
  - intros Hnd n. case_bool_decide as Hn; simpl.
    + by apply list_remove_elem_of.
    + split; [|naive_solver]. intros Hin. split; [done|]. by intros ->.
  - intros Hn. unfold Customer.add_account_number.
    rewrite (bool_decide_eq_false_2 _ Hn). simpl.
    rewrite bool_decide_eq_true_2 by set_solver.
    rewrite list_remove_app_new by done. by destruct self.
  - by case_bool_decide.
  - by case_bool_decide.
  - by case_bool_decide.
Qed.

(** [list.remove] takes out the first occurrence only: a number held twice
    is still held after one removal. *)
Example remove_account_number_twice :
  Customer.account_numbers
    (Customer.remove_account_number (Customer.mk "c" "n" "a" ["x"; "y"; "x"]%string) "x")
  = ["y"; "x"]%string.
Proof. reflexivity. Qed.

(** ** Deposits *)



(** ** Interest *)


(** ** Customers of the bank *)

(** X6.  [add_customer] succeeds exactly when the identifier is free.  A
    refused call leaves the bank and the files as they were, so a customer
    of the bank is never replaced; a granted one stores the customer under
    its identifier, keeps every other customer and every account, and writes
    the files. *)
Theorem add_customer_rule (self : Bank.t) (customer : Customer.t) :
  let '(success, self') := Bank.add_customer self customer in
  (success = true ↔ Bank.customers self !! Customer.customer_id customer = None)
  ∧ (success = false → self' = self)
  ∧ (success = true →
       Bank.customers self' !! Customer.customer_id customer = Some customer
       ∧ (∀ k, k ≠ Customer.customer_id customer →
               Bank.customers self' !! k = Bank.customers self !! k)
       ∧ Bank.accounts self' = Bank.accounts self
       ∧ Bank.disk self' = Bank.snapshot self')
  ∧ (∀ k before, Bank.customers self !! k = Some before →
                 Bank.customers self' !! k = Some before).
Proof.
  unfold Bank.add_customer. case_bool_decide as Hin.
  - split_and!; try done. split; [done|]. intros Hn. rewrite Hn in Hin.
    by destruct Hin.
  - apply eq_None_not_Some in Hin. split_and!; try done.
    + intros _. simpl. split_and!; [by rewrite lookup_insert_eq| |done|done].
      intros k Hk. by rewrite lookup_insert_ne.
    + intros k before Hk. simpl. rewrite lookup_insert_ne; [done|].
      intros <-. congruence.
Qed.

(** ** The accounts of a customer *)

Lemma omap_lookup_sublist (accounts : gmap string Account.t) (l : list string) :
  map_Forall account_wf accounts →
  Account.account_number <$> omap (λ acc_num, accounts !! acc_num) l `sublist_of` l.
Proof.
  intros Hwf. induction l as [|n l IH]; [constructor|].
  change (omap (λ acc_num, accounts !! acc_num) (n :: l))
    with (match accounts !! n with
          | Some a => a :: omap (λ acc_num, accounts !! acc_num) l
          | None => omap (λ acc_num, accounts !! acc_num) l
          end).
  destruct (accounts !! n) as [a|] eqn:Hn.
  - rewrite fmap_cons, (Hwf n a Hn). by constructor.
  - by constructor.
Qed.

Lemma omap_lookup_length (accounts : gmap string Account.t) (l : list string) :
  (length (omap (λ acc_num, accounts !! acc_num) l) ≤ length l)%nat.
Proof.
  induction l as [|n l IH]; [done|].
  change (omap (λ acc_num, accounts !! acc_num) (n :: l))
    with (match accounts !! n with
          | Some a => a :: omap (λ acc_num, accounts !! acc_num) l
          | None => omap (λ acc_num, accounts !! acc_num) l
          end).
  destruct (accounts !! n); simpl; lia.
Qed.

(** X7.  [get_customer_accounts] returns the empty list for an unknown
    customer.  For a customer of the bank it returns exactly the accounts
    stored under the numbers the customer lists: a listed number with no
    account is skipped, so the result is never longer than the list; when
    every account is stored under its own number, the numbers of the
    accounts returned follow the order of the customer's list. *)
Theorem get_customer_accounts_rule (self : Bank.t) (customer_id : string) :
  match Bank.customers self !! customer_id with
  | None => Bank.get_customer_accounts self customer_id = []
  | Some customer =>
      (∀ account,
         account ∈ Bank.get_customer_accounts self customer_id ↔
         ∃ acc_num, acc_num ∈ Customer.account_numbers customer
                    ∧ Bank.accounts self !! acc_num = Some account)
      ∧ (length (Bank.get_customer_accounts self customer_id)
         ≤ length (Customer.account_numbers customer))%nat
      ∧ (map_Forall account_wf (Bank.accounts self) →
         Account.account_number <$> Bank.get_customer_accounts self customer_id
           `sublist_of` Customer.account_numbers customer)
      ∧ ((∀ acc_num, acc_num ∈ Customer.account_numbers customer →
                     Bank.accounts self !! acc_num = None) →
         Bank.get_customer_accounts self customer_id = [])
  end.
Proof.
  unfold Bank.get_customer_accounts.
  destruct (Bank.customers self !! customer_id) as [c|]; [|done].
  split_and!.
  - intros a. apply list_elem_of_omap.
  - apply omap_lookup_length.
  - apply omap_lookup_sublist.
  - intros Hnone. induction (Customer.account_numbers c) as [|n l IH]; [done|].
    change (omap (λ acc_num, Bank.accounts self !! acc_num) (n :: l))
      with (match Bank.accounts self !! n with
            | Some a => a :: omap (λ acc_num, Bank.accounts self !! acc_num) l
            | None => omap (λ acc_num, Bank.accounts self !! acc_num) l
            end).
    rewrite (Hnone n) by set_solver. apply IH. intros m Hm. apply Hnone. set_solver.
Qed.

(** X8.  A granted [create_account]: for a customer of the bank and a
    recognised type, the call returns an unlocked account with no failed
    attempt, the given balance, the customer as owner and the first eight
    characters of the UUID as number; the account is stored under that
    number, the customer lists the number and [get_customer_accounts]
    returns the account; other customers are untouched and the files are
    written. *)
Theorem create_account_rule (self : Bank.t) (customer_id account_type : string)
    (initial_balance : Qc) (password : string) (kwargs : gmap string Qc)
    (uuid4 : string) :
  is_Some (Bank.customers self !! customer_id) →
  lower account_type = "savings"%string ∨ lower account_type = "checking"%string →
  ∃ account self',
    Bank.create_account self customer_id account_type initial_balance password
      kwargs uuid4 = (Some account, self')
    ∧ Account.account_number account = prefix8 uuid4
    ∧ Account.account_holder_id account = customer_id
    ∧ Account.balance account = initial_balance
    ∧ Account.is_locked account = false
    ∧ Account.failed_attempts account = 0%Z
    ∧ Account.kind account
      = (if bool_decide (lower account_type = "savings"%string)
         then Account.Savings (default one_percent (kwargs !! "interest_rate"%string))
         else Account.Checking (default 0 (kwargs !! "overdraft_limit"%string)))
    ∧ Bank.accounts self' !! prefix8 uuid4 = Some account
    ∧ (∀ k, k ≠ prefix8 uuid4 → Bank.accounts self' !! k = Bank.accounts self !! k)
    ∧ (∃ customer', Bank.customers self' !! customer_id = Some customer'
                    ∧ prefix8 uuid4 ∈ Customer.account_numbers customer')
    ∧ (∀ k, k ≠ customer_id → Bank.customers self' !! k = Bank.customers self !! k)
    ∧ account ∈ Bank.get_customer_accounts self' customer_id
    ∧ Bank.disk self' = Bank.snapshot self'.
Proof.
  intros [c Hc] Hty. unfold Bank.create_account. rewrite Hc.
  assert (∀ account : Account.t,
    let self' := Bank._save_data
      (Bank.mk (<[customer_id := Customer.add_account_number c (prefix8 uuid4)]>
                  (Bank.customers self))
               (<[prefix8 uuid4 := account]> (Bank.accounts self)) (Bank.disk self)) in
    Bank.accounts self' !! prefix8 uuid4 = Some account
    ∧ (∀ k, k ≠ prefix8 uuid4 → Bank.accounts self' !! k = Bank.accounts self !! k)
    ∧ (∃ customer', Bank.customers self' !! customer_id = Some customer'
                    ∧ prefix8 uuid4 ∈ Customer.account_numbers customer')
    ∧ (∀ k, k ≠ customer_id → Bank.customers self' !! k = Bank.customers self !! k)
    ∧ account ∈ Bank.get_customer_accounts self' customer_id
    ∧ Bank.disk self' = Bank.snapshot self') as Hreg.
  { intros account self'. subst self'. simpl.
    assert (prefix8 uuid4
              ∈ Customer.account_numbers
                  (Customer.add_account_number c (prefix8 uuid4))) as Hin.
    { unfold Customer.add_account_number. case_bool_decide; [done|]. simpl. set_solver. }
    split_and!.
    - by rewrite lookup_insert_eq.
    - intros k Hk. by rewrite lookup_insert_ne.
    - eexists. split; [by rewrite lookup_insert_eq|done].
    - intros k Hk. by rewrite lookup_insert_ne.
    - unfold Bank.get_customer_accounts. simpl. rewrite lookup_insert_eq.
      apply list_elem_of_omap. exists (prefix8 uuid4). split; [done|].
      by rewrite lookup_insert_eq.
    - done. }
  case_bool_decide as H1.
  - eexists _, _. split; [done|]. split_and!; try done; apply Hreg.
  - destruct Hty as [?|H2]; [done|]. rewrite bool_decide_eq_true_2 by done.
    eexists _, _. split; [done|]. split_and!; try done; apply Hreg.
Qed.

(** ** Invariants of a bank started without files *)

Section invariants.
Import Bank.

(** A property of accounts that new accounts have and method calls keep
    holds of every account of every state. *)
Lemma account_invariant (P : Account.t → Prop) :
  (∀ op account, new_account op = Some account → P account) →
  (∀ account account', P account → method_call account account' → P account') →
  ∀ self, reachable_by any_operation new_bank self →
    map_Forall (λ _ account, P account) (accounts self).
Proof.
  intros Hnew Hcall self Hr.
  induction Hr as [|self op Hr IH _].
  { intros k a. simpl. by rewrite lookup_empty. }
  intros k a' [(a & Ha & Hm)|[Hn _]]%run_accounts; [|by eapply Hnew].
  specialize (IH k a Ha). simpl in IH.
  clear Ha. induction Hm as [|a1 a2 _ IHm Hc]; [done|]. by eapply Hcall.
Qed.

Lemma new_account_fields op account :
  new_account op = Some account →
  Account.is_locked account = false ∧ Account.failed_attempts account = 0%Z.
Proof.
  destruct op; try done. simpl.
  repeat case_bool_decide; intros; by simplify_eq.
Qed.

Lemma method_call_attempts_ok account account' :
  attempts_ok account → method_call account account' → attempts_ok account'.
Proof.
  unfold attempts_ok. intros Hok Hcall.
  destruct Hcall as [password|amount|amount|].
  - unfold Account.verify_password.
    destruct Hok as [[Hl Hfa]|[Hl Hfa]]; rewrite Hl; [|by right].
    case_bool_decide; simpl; [left; split; [done|lia]|].
    case_bool_decide; simpl; [right|left]; split; try done; lia.
  - rewrite deposit_unfold. by case_bool_decide.
  - rewrite withdraw_unfold. by destruct (_ && _).
  - unfold AnyAccount.apply_interest_if_savings. by destruct (Account.kind account).
Qed.

Lemma run_owned self op : owned self → owned (run self op).
Proof.
  intros Hown.
  assert (∀ self' : Bank.t,
            customers self' = customers self → same_objects self self' →
            owned self') as Hsame.
  { intros self' Hc Hs k a' (a & Ha & Hm)%Hs.
    destruct (Hown k a Ha) as (Hnum & c & Hcust & Hin).
    pose proof (mutated_fields a a' Hm) as (-> & -> & _).
    rewrite Hc. eauto. }
  destruct op as [c|cid choice confirm|cid ty init pw kw uuid|n amt|n amt pw
                  |from to amt pw|]; simpl.
  - unfold add_customer. case_bool_decide as Hin; [done|]. simpl.
    apply eq_None_not_Some in Hin.
    intros k a Ha. destruct (Hown k a Ha) as (Hnum & c' & Hc' & Hk).
    split; [done|]. exists c'. split; [|done]. simpl.
    rewrite lookup_insert_ne; [done|]. intros Heq. congruence.
  - destruct (remove_customer_cases self cid choice confirm) as [->|(c & Hc & ->)];
      [done|].
    intros k a. simpl. rewrite remove_accounts_lookup.
    case_bool_decide as Hk; [done|]. intros Ha.
    destruct (Hown k a Ha) as (Hnum & c' & Hc' & Hin).
    split; [done|]. exists c'. split; [|done].
    rewrite lookup_delete_ne; [done|]. intros Heq. congruence.
  - unfold create_account.
    destruct (customers self !! cid) as [c|] eqn:Hc; [|done].
    assert (∀ account : Account.t,
              Account.account_number account = prefix8 uuid →
              Account.account_holder_id account = cid →
              owned (_save_data
                (mk (<[cid := Customer.add_account_number c (prefix8 uuid)]>
                       (customers self))
                    (<[prefix8 uuid := account]> (accounts self)) (disk self))))
      as Hreg.
    { intros account Hnum Hhold k a. simpl. rewrite lookup_insert.
      pose proof (add_account_number_elem c (prefix8 uuid)) as Hmem.
      case_decide as Hk.
      - intros [= <-]. split; [congruence|]. rewrite Hhold, lookup_insert_eq.
        eexists. split; [done|]. apply Hmem. by right.
      - intros Ha. destruct (Hown k a Ha) as (Hn & c' & Hc' & Hk').
        split; [done|]. rewrite lookup_insert. case_decide as Hh.
        + rewrite <-Hh, Hc in Hc'. simplify_eq. eexists. split; [done|].
          apply Hmem. by left.
        + eauto. }
    repeat case_bool_decide; try done; by apply Hreg.
  - apply Hsame; [apply customers_deposit|apply same_objects_deposit].
  - apply Hsame; [apply customers_withdraw|apply same_objects_withdraw].
  - apply Hsame; [apply customers_transfer_funds|].
    unfold transfer_funds.
    pose proof (same_objects_transfer_funds self from to amt pw) as Hs.
    by destruct (transfer_funds_exit self from to amt pw).
  - apply Hsame; [done|apply same_objects_apply_all_interest].
Qed.

End invariants.

(** X9.  In every state reached from a bank started without files, by
    any operations, every account is stored under its own number and is
    owned by a customer of the bank who lists that number, so that
    [get_customer_accounts] for the owner returns it: removing a customer
    leaves no account behind. *)
Theorem accounts_have_owners (self : Bank.t) :
  reachable_by any_operation new_bank self →
  owned self
  ∧ ∀ k account, Bank.accounts self !! k = Some account →
      account ∈ Bank.get_customer_accounts self (Account.account_holder_id account).
Proof.
  intros Hr.
  assert (owned self) as Hown.
  { induction Hr as [|self op _ IH _]; [|by apply run_owned].
    intros k a. simpl. by rewrite lookup_empty. }
  split; [done|]. intros k a Ha.
  destruct (Hown k a Ha) as (_ & c & Hc & Hk).
  unfold Bank.get_customer_accounts. rewrite Hc.
  apply list_elem_of_omap. eauto.
Qed.

(** X10.  In every state reached from a bank started without files, every
    account is either unlocked with 0, 1 or 2 failed attempts or locked with
    exactly 3: the count never leaves the range 0 to 3, and an unlocked
    account always has an attempt left. *)
Theorem failed_attempts_bounds (self : Bank.t) :
  reachable_by any_operation new_bank self →
  map_Forall (λ _ account, attempts_ok account) (Bank.accounts self).
Proof.
  apply account_invariant.
  - intros op a [Hl Hfa]%new_account_fields. left. split; [done|lia].
  - apply method_call_attempts_ok.
Qed.

(** ** Withdrawals at the bank *)


(** One call of [Bank.withdraw] with a wrong password. *)
Lemma withdraw_wrong_password (self : Bank.t) account_number amount password account :
  Bank.accounts self !! account_number = Some account →
  Account.password_hash account ≠ Account._hash_password password →
  ∃ self',
    Bank.withdraw self account_number amount password = (false, self')
    ∧ Bank.accounts self'
      = <[account_number := (Account.verify_password account password).2]>
          (Bank.accounts self)
    ∧ (Account.is_locked account = false ∨ Bank.disk self = Bank.snapshot self →
       Bank.disk self' = Bank.snapshot self').
Proof.
  intros Ha Hpw. unfold Bank.withdraw. rewrite Ha.
  destruct (Account.is_locked account) eqn:Hl.
  - exists self. rewrite verify_locked by done. split; [done|].
    split; [by rewrite insert_id|]. by intros [?|?].
  - rewrite verify_wrong by done. cbn [negb snd]. eexists. split; [done|].
    split; [done|]. done.
Qed.

(** X12.  Lockout at the bank.  Three calls of [Bank.withdraw] with
    wrong passwords, on an account that is not locked and whose count of
    failed attempts is not negative, leave it locked, in memory and in the
    files.  From then on every withdrawal and every transfer from it is
    refused and changes nothing, whatever the password, while a deposit of
    a positive amount is still granted. *)
Theorem bank_lockout (self : Bank.t) (account_number : string) (account : Account.t)
    (amount1 amount2 amount3 : Qc) (p1 p2 p3 : string) :
  Bank.accounts self !! account_number = Some account →
  Account.is_locked account = false →
  (0 ≤ Account.failed_attempts account)%Z →
  Account.password_hash account ≠ Account._hash_password p1 →
  Account.password_hash account ≠ Account._hash_password p2 →
  Account.password_hash account ≠ Account._hash_password p3 →
  let self1 := (Bank.withdraw self account_number amount1 p1).2 in
  let self2 := (Bank.withdraw self1 account_number amount2 p2).2 in
  let self3 := (Bank.withdraw self2 account_number amount3 p3).2 in
  (∃ locked, Bank.accounts self3 !! account_number = Some locked
             ∧ Account.is_locked locked = true
             ∧ Account.balance locked = Account.balance account)
  ∧ Bank.disk self3 = Bank.snapshot self3
  ∧ (∀ amount password,
       Bank.withdraw self3 account_number amount password = (false, self3))
  ∧ (∀ to_acc_num amount password,
       Bank.transfer_funds self3 account_number to_acc_num amount password
       = (false, self3))
  ∧ (∀ amount, 0 < amount → (Bank.deposit self3 account_number amount).1 = true).
Proof.
  intros Ha Hl Hfa H1 H2 H3.
  destruct (withdraw_wrong_password self account_number amount1 p1 account Ha H1)
    as (self1 & E1 & Hacc1 & Hd1).
  rewrite E1. cbn [snd].
  set (a1 := (Account.verify_password account p1).2) in *.
  assert (Bank.accounts self1 !! account_number = Some a1) as Ha1.
  { rewrite Hacc1. apply lookup_insert_eq. }
  pose proof (verify_fields account p1) as (_ & _ & Hb1 & Hh1 & _).
  fold a1 in Hb1, Hh1.
  destruct (withdraw_wrong_password self1 account_number amount2 p2 a1 Ha1
              ltac:(by rewrite Hh1)) as (self2 & E2 & Hacc2 & Hd2).
  rewrite E2. cbn [snd].
  set (a2 := (Account.verify_password a1 p2).2) in *.
  assert (Bank.accounts self2 !! account_number = Some a2) as Ha2.
  { rewrite Hacc2. apply lookup_insert_eq. }
  pose proof (verify_fields a1 p2) as (_ & _ & Hb2 & Hh2 & _).
  fold a2 in Hb2, Hh2.
  destruct (withdraw_wrong_password self2 account_number amount3 p3 a2 Ha2
              ltac:(by rewrite Hh2, Hh1)) as (self3 & E3 & Hacc3 & Hd3).
  rewrite E3. cbn [snd].
  set (a3 := (Account.verify_password a2 p3).2) in *.
  assert (Bank.accounts self3 !! account_number = Some a3) as Ha3.
  { rewrite Hacc3. apply lookup_insert_eq. }
  pose proof (verify_fields a2 p3) as (_ & _ & Hb3 & _).
  fold a3 in Hb3.
  assert (Account.is_locked a3 = true) as Hl3.
  { apply (three_wrong_attempts account p1 p2 p3); done. }
  split_and!.
  - exists a3. split_and!; [done|done|congruence].
  - apply Hd3. right. apply Hd2. right. apply Hd1. by left.
  - intros amount password. unfold Bank.withdraw. by rewrite Ha3, Hl3.
  - intros to amount password. unfold Bank.transfer_funds, Bank.transfer_funds_exit.
    rewrite Ha3. destruct (Bank.accounts self3 !! to); [|done].
    case_bool_decide; [done|]. by rewrite Hl3.
  - intros amount Hpos. unfold Bank.deposit. rewrite Ha3.
    rewrite deposit_true by done. done.
Qed.

(** ** Transfers *)

(** The state after [transfer_funds], case by case, for known accounts
    that may be one and the same. *)
Lemma transfer_funds_cases (self : Bank.t) from_acc_num to_acc_num amount password
    source success self' :
  Bank.accounts self !! from_acc_num = Some source →
  is_Some (Bank.accounts self !! to_acc_num) →
  Bank.transfer_funds self from_acc_num to_acc_num amount password = (success, self') →
  let granted :=
    0 < amount ∧ Account.is_locked source = false
    ∧ Account.password_hash source = Account._hash_password password
    ∧ AnyAccount.floor source ≤ Account.balance source - amount in
  Bank.customers self' = Bank.customers self
  ∧ ((granted ∧ success = true ∧ Bank.disk self' = Bank.snapshot self'
      ∧ ∃ destination,
          <[from_acc_num :=
              Account.set_balance (Account.balance source - amount)
                (Account.set_failed_attempts 0 source)]> (Bank.accounts self)
            !! to_acc_num = Some destination
          ∧ Bank.accounts self'
            = <[to_acc_num :=
                  Account.set_balance (Account.balance destination + amount)
                    destination]>
                (<[from_acc_num :=
                     Account.set_balance (Account.balance source - amount)
                       (Account.set_failed_attempts 0 source)]> (Bank.accounts self)))
     ∨ (¬ granted ∧ success = false
        ∧ ∃ source', Account.balance source' = Account.balance source
            ∧ Bank.accounts self' = <[from_acc_num := source']> (Bank.accounts self))).
Proof.
  intros Hf [d Ht] E granted. subst granted.
  unfold Bank.transfer_funds, Bank.transfer_funds_exit in E. rewrite Hf, Ht in E.
  assert (Bank.accounts self = <[from_acc_num := source]> (Bank.accounts self)) as Hid.
  { by rewrite insert_id. }
  case_bool_decide as Hamt.
  { simplify_eq. split; [done|]. right. split_and!; [|done|by exists source].
    intros (Hpos & _). by apply Qclt_not_le in Hpos. }
  apply Qcnot_le_lt in Hamt.
  destruct (Account.is_locked source) eqn:Hl.
  { simplify_eq. split; [done|]. right.
    split_and!; [|done|by exists source]. by intros (_ & ? & _). }
  destruct (Account.verify_password source password) as [verified a1] eqn:Hv.
  unfold Account.verify_password in Hv. rewrite Hl in Hv.
  case_bool_decide as Hpw; injection Hv as <- <-; cbn [negb] in E.
  2:{ simplify_eq. split; [done|]. right.
      split_and!; [by intros (_ & _ & ? & _)|done|].
      eexists. split; [|done]. by case_bool_decide. }
  destruct (AnyAccount.withdraw _ amount) as [withdrawn a2] eqn:Hw.
  rewrite withdraw_unfold in Hw.
  assert (AnyAccount.floor (Account.set_failed_attempts 0 source)
          = AnyAccount.floor source) as Hfloor by done.
  rewrite Hfloor in Hw.
  change (Account.balance (Account.set_failed_attempts 0 source))
    with (Account.balance source) in Hw.
  rewrite (bool_decide_eq_true_2 (0 < amount)) in Hw by done.
  cbn [andb] in Hw. case_bool_decide as Hfl; injection Hw as <- <-; cbn [negb] in E.
  2:{ simplify_eq. split; [done|]. right.
      split_and!; [by intros (_ & _ & _ & ?)|done|].
      eexists. split; [|unfold Bank.store; simpl; by rewrite insert_insert_eq]. done. }
  set (a2 := Account.set_balance _ _) in *.
  assert (Bank.accounts
            (Bank.store from_acc_num a2
               (Bank.store from_acc_num (Account.set_failed_attempts 0 source) self))
          = <[from_acc_num := a2]> (Bank.accounts self)) as Hacc2.
  { unfold Bank.store; simpl. by rewrite insert_insert_eq. }
  rewrite Hacc2 in E.
  destruct (<[from_acc_num := a2]> (Bank.accounts self) !! to_acc_num)
    as [dest|] eqn:Hdest.
  2:{ exfalso. rewrite lookup_insert in Hdest. case_decide; [done|congruence]. }
  rewrite deposit_true in E by done. simplify_eq.
  split; [done|]. left. split_and!; try done.
  exists dest. split; [done|]. unfold Bank.store. simpl. by rewrite insert_insert_eq.
Qed.



(** ** What every operation keeps *)

Section every_operation.
Import Bank.

Lemma withdraw_cases (self : Bank.t) account_number amount password account
    success self' :
  accounts self !! account_number = Some account →
  withdraw self account_number amount password = (success, self') →
  customers self' = customers self
  ∧ (disk self' = disk self ∨ disk self' = snapshot self')
  ∧ ((success = true ∧ disk self' = snapshot self')
     ∨ (success = false
        ∧ ∃ account', Account.balance account' = Account.balance account
            ∧ accounts self' = <[account_number := account']> (accounts self))).
Proof.
  intros Ha E. unfold withdraw in E. rewrite Ha in E.
  destruct (Account.is_locked account) eqn:Hl.
  { simplify_eq. split_and!; [done|by left|]. right. split; [done|].
    exists account. by rewrite insert_id. }
  destruct (Account.verify_password account password) as [verified a1] eqn:Hv.
  pose proof (verify_fields account password) as (_ & _ & Hb1 & _).
  rewrite Hv in Hb1. cbn [snd] in Hb1.
  destruct verified; cbn [negb] in E.
  2:{ simplify_eq. split_and!; [done|by right|]. right. split; [done|]. by exists a1. }
  destruct (AnyAccount.withdraw a1 amount) as [[] a2] eqn:Hw; simplify_eq.
  - split_and!; [done|by right|by left].
  - apply withdraw_false_inv in Hw as ->.
    split_and!; [done|by left|]. right. split; [done|]. exists a1.
    split; [done|]. unfold store; simpl. by rewrite insert_insert_eq.
Qed.

Lemma transfer_funds_disk (self : Bank.t) from_acc_num to_acc_num amount password :
  let r := transfer_funds self from_acc_num to_acc_num amount password in
  (r.1 = true → disk r.2 = snapshot r.2)
  ∧ (disk r.2 = disk self ∨ disk r.2 = snapshot r.2).
Proof.
  cbv zeta. unfold transfer_funds, transfer_funds_exit.
  destruct (accounts self !! from_acc_num) as [a|]; [|by split; [|left]].
  destruct (accounts self !! to_acc_num) as [b|]; [|by split; [|left]].
  case_bool_decide; [by split; [|left]|].
  destruct (Account.is_locked a); [by split; [|left]|].
  destruct (Account.verify_password _ _) as [[] ?]; cbn [negb]; [|by split; [|right]].
  destruct (AnyAccount.withdraw _ _) as [[] ?]; cbn [negb]; [|by split; [|left]].
  destruct (accounts _ !! to_acc_num); [|by split; [|left]].
  destruct (AnyAccount.deposit _ _) as [[] ?]; [by split; [|right]|].
  destruct (accounts _ !! from_acc_num); [|by split; [|left]].
  destruct (AnyAccount.deposit _ _) as [? ?]. by split; [|left].
Qed.

Lemma deposit_cases (self : Bank.t) account_number amount :
  let r := deposit self account_number amount in
  (r.1 = true ∧ disk r.2 = snapshot r.2) ∨ (r.1 = false ∧ r.2 = self).
Proof.
  cbv zeta. unfold deposit.
  destruct (accounts self !! account_number) as [a|] eqn:Ha; [|by right].
  rewrite deposit_unfold. case_bool_decide; [by left|]. right. split; [done|].
  unfold store. rewrite insert_id by done. by destruct self.
Qed.

End every_operation.

(** X15.  The files are written as a whole or not at all: after any
    operation they hold either what they held before or the two
    dictionaries as they now are.  An operation that reports success has
    written them. *)
Theorem files_follow_success (self : Bank.t) (op : operation) :
  (Bank.disk (run self op) = Bank.disk self
   ∨ Bank.disk (run self op) = Bank.snapshot (run self op))
  ∧ (reports_success self op = true →
     Bank.disk (run self op) = Bank.snapshot (run self op)).
Proof.
  destruct op as [c|cid choice confirm|cid ty init pw kw uuid|n amt|n amt pw
                  |from to amt pw|]; simpl.
  - unfold Bank.add_customer. case_bool_decide; simpl; [by split; [left|]|].
    by split; [right|].
  - destruct (remove_customer_cases self cid choice confirm) as [->|(c & _ & ->)];
      simpl; [by split; [left|]|by split; [right|]].
  - unfold Bank.create_account.
    destruct (Bank.customers self !! cid); [|by split; [left|]].
    repeat case_bool_decide; simpl; try (by split; [right|]). by split; [left|].
  - destruct (deposit_cases self n amt) as [[-> ?]|[-> ->]]; [by split; [right|]|].
    by split; [left|].
  - destruct (Bank.withdraw self n amt pw) as [success self'] eqn:E. simpl.
    destruct (Bank.accounts self !! n) as [a|] eqn:Ha.
    + destruct (withdraw_cases self n amt pw a success self' Ha E)
        as (_ & Hd & [[-> ?]|[-> _]]); by split.
    + unfold Bank.withdraw in E. rewrite Ha in E. simplify_eq. by split; [left|].
  - pose proof (transfer_funds_disk self from to amt pw) as [H1 H2]. by split.
  - by split; [right|].
Qed.

(** X16.  A failed operation moves no money and touches no customer: when
    an operation reports failure, the customers are what they were and so is
    every balance.  (A refused withdrawal or transfer may still have changed
    the count of failed attempts or the lock of the account it was asked to
    debit.) *)
Theorem failure_changes_no_balance (self : Bank.t) (op : operation) :
  reports_success self op = false →
  Bank.customers (run self op) = Bank.customers self
  ∧ (∀ k, Account.balance <$> Bank.accounts (run self op) !! k
          = Account.balance <$> Bank.accounts self !! k)
  ∧ Bank.total_balance (run self op) = Bank.total_balance self.
Proof.
  assert (∀ self' : Bank.t, self' = self →
            Bank.customers self' = Bank.customers self
            ∧ (∀ k, Account.balance <$> Bank.accounts self' !! k
                    = Account.balance <$> Bank.accounts self !! k)
            ∧ Bank.total_balance self' = Bank.total_balance self) as Hsame.
  { by intros ? ->. }
  assert (∀ (self' : Bank.t) n a a',
            Bank.accounts self !! n = Some a →
            Account.balance a' = Account.balance a →
            Bank.customers self' = Bank.customers self →
            Bank.accounts self' = <[n := a']> (Bank.accounts self) →
            Bank.customers self' = Bank.customers self
            ∧ (∀ k, Account.balance <$> Bank.accounts self' !! k
                    = Account.balance <$> Bank.accounts self !! k)
            ∧ Bank.total_balance self' = Bank.total_balance self) as Hins.
  { intros self' n a a' Ha Hb Hc Hacc. split_and!; [done| |].
    - intros k. rewrite Hacc, lookup_insert. case_decide; [|done].
      subst k. rewrite Ha. simpl. by rewrite Hb.
    - unfold Bank.total_balance. rewrite Hacc.
      rewrite (sum_balances_insert _ _ a) by done. rewrite Hb. ring. }
  destruct op as [c|cid choice confirm|cid ty init pw kw uuid|n amt|n amt pw
                  |from to amt pw|]; simpl.
  - unfold Bank.add_customer. case_bool_decide; simpl; [|done]. intros _.
    by apply Hsame.
  - destruct (remove_customer_cases self cid choice confirm) as [->|(c & _ & ->)];
      simpl; [|done]. intros _. by apply Hsame.
  - unfold Bank.create_account.
    destruct (Bank.customers self !! cid); [|intros _; by apply Hsame].
    repeat case_bool_decide; simpl; try done; intros _; by apply Hsame.
  - destruct (deposit_cases self n amt) as [[-> ?]|[-> ->]]; [done|].
    intros _. by apply Hsame.
  - destruct (Bank.withdraw self n amt pw) as [success self'] eqn:E. simpl.
    intros ->. destruct (Bank.accounts self !! n) as [a|] eqn:Ha.
    + destruct (withdraw_cases self n amt pw a false self' Ha E)
        as (Hc & _ & [[? _]|[_ (a' & Hb & Hacc)]]); [done|]. by eapply Hins.
    + unfold Bank.withdraw in E. rewrite Ha in E. simplify_eq. by apply Hsame.
  - destruct (Bank.transfer_funds self from to amt pw) as [success self'] eqn:E.
    simpl. intros ->.
    destruct (Bank.accounts self !! from) as [a|] eqn:Hf.
    2:{ unfold Bank.transfer_funds, Bank.transfer_funds_exit in E. rewrite Hf in E.
        simplify_eq. by apply Hsame. }
    destruct (Bank.accounts self !! to) as [b|] eqn:Ht.
    2:{ unfold Bank.transfer_funds, Bank.transfer_funds_exit in E.
        rewrite Hf, Ht in E. simplify_eq. by apply Hsame. }
    destruct (transfer_funds_cases self from to amt pw a false self' Hf
                (mk_is_Some _ _ Ht) E)
      as [Hc [(_ & ? & _)|(_ & _ & a1 & Hb & Hacc)]]; [done|].
    by apply (Hins self' from a a1).
  - done.
Qed.

(** X17.  No operation changes who an account is: an account found in
    the bank after an operation is either the one [create_account] has just
    built, stored under its own number, or the account that was there
    before with the same number, owner, password hash, class and interest
    rate or overdraft limit, and still locked if it was.  In particular no
    operation changes or removes a password. *)
Theorem account_identity_is_kept (self : Bank.t) (op : operation) (k : string)
    (after : Account.t) :
  Bank.accounts (run self op) !! k = Some after →
  (new_account op = Some after ∧ Account.account_number after = k)
  ∨ ∃ before,
      Bank.accounts self !! k = Some before
      ∧ Account.account_number after = Account.account_number before
      ∧ Account.account_holder_id after = Account.account_holder_id before
      ∧ Account.password_hash after = Account.password_hash before
      ∧ Account.kind after = Account.kind before
      ∧ (Account.is_locked before = true → Account.is_locked after = true).
Proof.
  intros [(a & Ha & Hm)|?]%run_accounts; [right|by left].
  exists a. split; [done|]. by apply mutated_fields.
Qed.

(** ** Loading *)

Section loading.
Import Bank.

Lemma foldl_add_account_number_list (customer : Customer.t) (l : list string) :
  NoDup (Customer.account_numbers customer) →
  ∃ l',
    Customer.account_numbers (foldl Customer.add_account_number customer l)
    = Customer.account_numbers customer ++ l'
    ∧ l' `sublist_of` l
    ∧ NoDup (Customer.account_numbers customer ++ l')
    ∧ ∀ n, n ∈ Customer.account_numbers customer ++ l'
           ↔ n ∈ Customer.account_numbers customer ∨ n ∈ l.
Proof.
  induction l as [|x l IH] in customer |- *; intros Hnd; cbn [foldl].
  { exists []. rewrite app_nil_r. split_and!; [done|done|done|].
    intros n. rewrite elem_of_nil. naive_solver. }
  unfold Customer.add_account_number at 2. case_bool_decide as Hx.
  - destruct (IH customer Hnd) as (l' & Heq & Hsub & Hnd' & Hmem).
    exists l'. split_and!; [done|by constructor|done|].
    intros n. rewrite Hmem, elem_of_cons. naive_solver.
  - set (c1 := Customer.mk _ _ _ _).
    assert (NoDup (Customer.account_numbers c1)) as Hnd1.
    { simpl. apply NoDup_app. split_and!; [done| |apply NoDup_singleton].
      intros y Hy ->%list_elem_of_singleton. done. }
    destruct (IH c1 Hnd1) as (l' & Heq & Hsub & Hnd' & Hmem).
    simpl in Heq, Hnd', Hmem. rewrite <-app_assoc in Heq, Hnd', Hmem.
    exists (x :: l'). split_and!; [done|by constructor|done|].
    intros n. rewrite Hmem, elem_of_app, list_elem_of_singleton, elem_of_cons.
    naive_solver.
Qed.

End loading.

(** X18.  Whatever the two files hold, when [Bank()] loads them every
    customer is stored under its own identifier and lists no account number
    twice, every account is stored under its own number, and the files are
    left as they were. *)
Theorem loaded_bank_is_well_keyed (d : Bank.files) (self : Bank.t) :
  Bank.init d = Some self →
  well_keyed self ∧ Bank.disk self = d.
Proof.
  intros H. split; [by eapply init_well_keyed|].
  unfold Bank.init in H. destruct (Bank._load_data d) as [[cs accs]|]; [|done].
  simpl in H. by simplify_eq.
Qed.

(** X19.  A customer record is loaded with the identifier, name and
    address of the file and with the account numbers of the file, each kept
    once and in the order of the file (all of them, as they are, when the
    file repeats none).  A record that misses one of the four fields does
    not load. *)
Theorem load_customer_rule (customer_data : jrecord) :
  match Bank.load_customer customer_data with
  | Some customer =>
      customer_data !! "customer_id"%string = Some (JStr (Customer.customer_id customer))
      ∧ customer_data !! "name"%string = Some (JStr (Customer.name customer))
      ∧ customer_data !! "address"%string = Some (JStr (Customer.address customer))
      ∧ ∃ l, customer_data !! "account_numbers"%string ≫= as_strs = Some l
             ∧ NoDup (Customer.account_numbers customer)
             ∧ Customer.account_numbers customer `sublist_of` l
             ∧ (∀ n, n ∈ Customer.account_numbers customer ↔ n ∈ l)
             ∧ (NoDup l → Customer.account_numbers customer = l)
  | None =>
      customer_data !! "customer_id"%string ≫= as_str = None
      ∨ customer_data !! "name"%string ≫= as_str = None
      ∨ customer_data !! "address"%string ≫= as_str = None
      ∨ customer_data !! "account_numbers"%string ≫= as_strs = None
  end.
Proof.
  unfold Bank.load_customer.
  destruct (customer_data !! "customer_id"%string) as [[| | |cid|]|] eqn:H1;
    try (by left).
  destruct (customer_data !! "name"%string) as [[| | |nm|]|] eqn:H2;
    try (by right; left).
  destruct (customer_data !! "address"%string) as [[| | |ad|]|] eqn:H3;
    try (by right; right; left).
  destruct (customer_data !! "account_numbers"%string ≫= as_strs) as [l|] eqn:H4;
    [|by right; right; right].
  cbn [mbind option_bind as_str].
  destruct (foldl_add_account_number_list (Customer.init cid nm ad) l
              ltac:(apply NoDup_nil_2)) as (l' & Heq & Hsub & Hnd & Hmem).
  simpl in Heq, Hnd, Hmem.
  pose proof (foldl_add_account_number_wf cid (Customer.init cid nm ad) l
                ltac:(split; [done|apply NoDup_nil_2])) as [Hid _].
  assert (∀ c0 l0, Customer.name (foldl Customer.add_account_number c0 l0)
                     = Customer.name c0
                   ∧ Customer.address (foldl Customer.add_account_number c0 l0)
                     = Customer.address c0) as Hna.
  { intros c0 l0. induction l0 as [|x l0 IH] in c0 |- *; [done|]. cbn [foldl].
    destruct (IH (Customer.add_account_number c0 x)) as [-> ->].
    unfold Customer.add_account_number. by case_bool_decide. }
  destruct (Hna (Customer.init cid nm ad) l) as [Hn Ha].
  assert (NoDup l →
          Customer.account_numbers
            (foldl Customer.add_account_number (Customer.init cid nm ad) l) = l)
    as Hfull.
  { intros Hndl. by rewrite foldl_add_account_number. }
  rewrite Heq in Hfull. rewrite Hid, Hn, Ha, Heq. split_and!; try done.
  exists l. split_and!; try done.
  intros n. rewrite Hmem. set_solver.
Qed.

(** X20.  An account record is skipped when its type is neither savings
    nor checking, and does not load when it has no type.  A loaded account
    has the number, owner and balance of the record; a missing lock loads as
    unlocked, a missing count of failed attempts as 0, and a missing
    password hash as the empty hash, which no password matches. *)
Theorem load_account_rule (acc_data : jrecord) :
  (acc_data !! "type"%string = None → Bank.load_account acc_data = None)
  ∧ (∀ type, acc_data !! "type"%string = Some type →
       is_str type "savings" = false → is_str type "checking" = false →
       Bank.load_account acc_data = Some None)
  ∧ (∀ account, Bank.load_account acc_data = Some (Some account) →
       acc_data !! "account_number"%string ≫= as_str
         = Some (Account.account_number account)
       ∧ acc_data !! "account_holder_id"%string ≫= as_str
         = Some (Account.account_holder_id account)
       ∧ acc_data !! "balance"%string ≫= as_num = Some (Account.balance account)
       ∧ (acc_data !! "is_locked"%string = None → Account.is_locked account = false)
       ∧ (acc_data !! "failed_attempts"%string = None →
          Account.failed_attempts account = 0%Z)
       ∧ (acc_data !! "password_hash"%string = None →
          Account.password_hash account = EmptyString
          ∧ ∀ password, (Account.verify_password account password).1 = false)).
Proof.
  unfold Bank.load_account. split_and!.
  - by intros ->.
  - intros ty -> H1 H2. cbn [mbind option_bind]. by rewrite H1, H2.
  - intros a. destruct (acc_data !! "type"%string) as [ty|]; [|done].
    cbn [mbind option_bind].
    destruct (acc_data !! "account_number"%string ≫= as_str) as [n|];
      [|by repeat case_match].
    destruct (acc_data !! "account_holder_id"%string ≫= as_str) as [h|];
      [|by repeat case_match].
    destruct (acc_data !! "balance"%string ≫= as_num) as [b|];
      [|by repeat case_match].
    cbn [mbind option_bind].
    assert (∀ a0 : Account.t,
              Account.account_number a0 = n → Account.account_holder_id a0 = h →
              Account.balance a0 = b →
              Some <$> Bank.restore_security acc_data a0 = Some (Some a) →
              Some n = Some (Account.account_number a)
              ∧ Some h = Some (Account.account_holder_id a)
              ∧ Some b = Some (Account.balance a)
              ∧ (acc_data !! "is_locked"%string = None → Account.is_locked a = false)
              ∧ (acc_data !! "failed_attempts"%string = None →
                 Account.failed_attempts a = 0%Z)
              ∧ (acc_data !! "password_hash"%string = None →
                 Account.password_hash a = EmptyString
                 ∧ ∀ password, (Account.verify_password a password).1 = false))
      as Hrest.
    { intros a0 Hn Hh Hb. unfold Bank.restore_security.
      destruct (acc_data !! "password_hash"%string) as [j1|];
        [destruct (as_str j1); [|done]|];
        (destruct (acc_data !! "failed_attempts"%string) as [j2|];
          [destruct (as_int j2); [|done]|]);
        (destruct (acc_data !! "is_locked"%string) as [j3|];
          [destruct (as_bool j3); [|done]|]);
        cbn [mbind option_bind fmap option_fmap option_map];
        intros [= <-]; simpl; rewrite ?Hn, ?Hh, ?Hb;
        split_and!; try done; intros _; (split; [done|]); intros password;
        by apply verify_empty_hash. }
    destruct (is_str ty "savings").
    { destruct (acc_data !! "interest_rate"%string ≫= as_num) as [r|]; [|done].
      cbn [mbind option_bind]. by apply Hrest. }
    destruct (is_str ty "checking"); [|done].
    destruct (acc_data !! "overdraft_limit"%string ≫= as_num) as [o|]; [|done].
    cbn [mbind option_bind]. by apply Hrest.
Qed.

(** ** Passwords *)

Lemma hex_digit_is_hex (n : Z) : is_hex (SHA256.hex_digit n).
Proof.
  unfold is_hex, SHA256.hex_digit.
  assert (0 ≤ n mod 16 < 16)%Z as Hn by (by apply Z.mod_pos_bound).
  apply list_elem_of_In, nth_In. simpl. lia.
Qed.

(** X21.  The stored hash of a password is 64 lowercase hexadecimal
    digits, whatever the password; so the empty hash stands for the empty
    password and nothing else: an account is created with the empty hash
    exactly when its password is empty. *)
Theorem password_hash_format (password : string) :
  String.length (Account._hash_password password) = 64%nat
  ∧ Forall is_hex (list_ascii_of_string (Account._hash_password password))
  ∧ ∀ account_number account_holder_id initial_balance k,
      Account.password_hash
        (Account.init account_number account_holder_id initial_balance password k)
      = EmptyString ↔ password = EmptyString.
Proof.
  split_and!.
  - reflexivity.
  - unfold Account._hash_password, SHA256.hexdigest, SHA256.hex_state, SHA256.hex_word.
    cbn [list_ascii_of_string].
    repeat (apply Forall_cons_2; [apply hex_digit_is_hex|]). apply Forall_nil_2.
  - intros n h b k. simpl. destruct password as [|c s]; [done|].
    split; [|done]. intros H. by apply hash_not_empty in H.
Qed.


(** ** What is written to the files *)

(** X23.  [_save_data] changes nothing in memory and writes one record
    per customer and one per account, each under the key it has in its
    dictionary and no key twice.  An account record has exactly eight
    fields: number, owner, balance, password hash, failed attempts, lock,
    type, and interest rate or overdraft limit, whichever the class has; a
    password is never written. *)
Theorem save_data_rule (self : Bank.t) :
  Bank.customers (Bank._save_data self) = Bank.customers self
  ∧ Bank.accounts (Bank._save_data self) = Bank.accounts self
  ∧ (∃ customers_data accounts_data,
       Bank.disk (Bank._save_data self)
       = Bank.mk_files (Some customers_data) (Some accounts_data)
       ∧ NoDup customers_data.*1 ∧ NoDup accounts_data.*1
       ∧ (∀ k r, (k, r) ∈ customers_data ↔
                 ∃ customer, Bank.customers self !! k = Some customer
                             ∧ r = Customer.to_dict customer)
       ∧ (∀ k r, (k, r) ∈ accounts_data ↔
                 ∃ account, Bank.accounts self !! k = Some account
                            ∧ r = AnyAccount.to_dict account))
  ∧ (∀ account,
       dom (AnyAccount.to_dict account)
       = {[ "account_number"; "account_holder_id"; "balance"; "password_hash";
            "failed_attempts"; "is_locked"; "type";
            match Account.kind account with
            | Account.Savings _ => "interest_rate"
            | Account.Checking _ => "overdraft_limit"
            end ]}%string).
Proof.
  split_and!; [done|done| |].
  - eexists _, _. split; [done|].
    split_and!; try apply NoDup_fst_map_to_list.
    + intros k r. rewrite elem_of_map_to_list, lookup_fmap.
      destruct (Bank.customers self !! k) as [c|]; simpl; naive_solver.
    + intros k r. rewrite elem_of_map_to_list, lookup_fmap.
      destruct (Bank.accounts self !! k) as [a|]; simpl; naive_solver.
  - intros a. unfold AnyAccount.to_dict, SavingsAccount.to_dict,
      CheckingAccount.to_dict, Account.base_to_dict.
    destruct (Account.kind a); simpl; rewrite !dom_insert_L, dom_empty_L; set_solver.
Qed.

(** ** The theorems above on the example bank *)

Lemma demo_bank_savings :
  Bank.accounts demo_bank !! "1b4e28ba"%string = Some demo_savings.
Proof. by vm_compute. Qed.

Lemma demo_bank_from_new : reachable_by any_operation new_bank demo_bank.
Proof.
  unfold demo_bank, demo_operations. cbn [foldl].
  repeat (apply reachable_run; [|done]). apply reachable_start.
Qed.


Lemma create_account_rule_witness :
  ∃ account,
    (Bank.create_account (run new_bank (AddCustomer alice)) "c1" "Savings"
       (Qc_of_Z 100) "secret" ∅ uuid_a).1 = Some account
    ∧ Account.account_number account = "1b4e28ba"%string
    ∧ Account.account_holder_id account = "c1"%string.
Proof.
  destruct (create_account_rule (run new_bank (AddCustomer alice)) "c1" "Savings"
              (Qc_of_Z 100) "secret" ∅ uuid_a)
    as (account & self' & E & Hn & Hh & _).
  - eexists. by vm_compute.
  - left. by vm_compute.
  - exists account. rewrite E. by split_and!.
Defined.

Lemma accounts_have_owners_witness :
  owned demo_bank
  ∧ ∀ k account, Bank.accounts demo_bank !! k = Some account →
      account ∈ Bank.get_customer_accounts demo_bank (Account.account_holder_id account).
Proof. apply accounts_have_owners, demo_bank_from_new. Defined.

Lemma failed_attempts_bounds_witness :
  map_Forall (λ _ account, attempts_ok account) (Bank.accounts demo_bank).
Proof. apply failed_attempts_bounds, demo_bank_from_new. Defined.

Lemma bank_lockout_witness :
  let self1 := (Bank.withdraw demo_bank "1b4e28ba" (Qc_of_Z 10) "a").2 in
  let self2 := (Bank.withdraw self1 "1b4e28ba" (Qc_of_Z 10) "b").2 in
  let self3 := (Bank.withdraw self2 "1b4e28ba" (Qc_of_Z 10) "c").2 in
  Bank.disk self3 = Bank.snapshot self3
  ∧ ∀ amount password,
      Bank.withdraw self3 "1b4e28ba" amount password = (false, self3).
Proof.
  pose proof (bank_lockout demo_bank "1b4e28ba" demo_savings
                (Qc_of_Z 10) (Qc_of_Z 10) (Qc_of_Z 10) "a" "b" "c"
                demo_bank_savings eq_refl ltac:(done)
                ltac:(by vm_compute) ltac:(by vm_compute) ltac:(by vm_compute))
    as (_ & Hd & Hw & _).
  by split.
Defined.


Lemma failure_changes_no_balance_witness :
  let op := Withdraw "1b4e28ba" (Qc_of_Z 10) "oops" in
  reports_success demo_bank op = false
  ∧ Bank.customers (run demo_bank op) = Bank.customers demo_bank
  ∧ (∀ k, Account.balance <$> Bank.accounts (run demo_bank op) !! k
          = Account.balance <$> Bank.accounts demo_bank !! k)
  ∧ Bank.total_balance (run demo_bank op) = Bank.total_balance demo_bank.
Proof.
  cbv zeta.
  assert (reports_success demo_bank (Withdraw "1b4e28ba" (Qc_of_Z 10) "oops") = false)
    as H by (by vm_compute).
  split; [done|]. by apply failure_changes_no_balance.
Defined.

Lemma account_identity_is_kept_witness :
  ∃ after,
    Bank.accounts (run demo_bank (Deposit "1b4e28ba" (Qc_of_Z 5))) !! "1b4e28ba"%string
    = Some after
    ∧ Account.password_hash after = Account.password_hash demo_savings
    ∧ Account.kind after = Account.kind demo_savings.
Proof.
  destruct (Bank.accounts (run demo_bank (Deposit "1b4e28ba" (Qc_of_Z 5)))
              !! "1b4e28ba"%string) as [after|] eqn:E; [|by vm_compute in E].
  exists after. split; [done|].
  destruct (account_identity_is_kept _ _ _ _ E)
    as [[Hnew _]|(before & Hb & _ & _ & Hh & Hk & _)]; [done|].
  rewrite demo_bank_savings in Hb. injection Hb as <-. by split.
Defined.

Lemma loaded_bank_is_well_keyed_witness :
  ∃ self,
    Bank.init messy_files = Some self
    ∧ well_keyed self
    ∧ Bank.disk self = messy_files
    ∧ Customer.account_numbers <$> Bank.customers self !! "c9"%string
      = Some ["a"; "b"]%string.
Proof.
  destruct (Bank.init messy_files) as [self|] eqn:E; [|by vm_compute in E].
  exists self. split; [done|].
  destruct (loaded_bank_is_well_keyed messy_files self E) as [Hwf Hd].
  split_and!; [done|done|].
  vm_compute in E. injection E as <-. reflexivity.
Defined.

